(** * Build library management and launch supervision (src/onboard.tsx)

    A shallow embedding of the launcher core of [src/onboard.tsx]: the two
    helpers [bytesToBase64] and [getFolderName], the component state of
    [Onboard] (the [useState] cells, [localStorage] and the commands sent
    to the native host), and the handlers [handleLaunch], [handleLogout],
    [addBuild], [removeBuild] together with the persistence and polling
    effects.

    JavaScript strings are modelled as Rocq [string]s, read as UTF-8 byte
    sequences: the separators, quotes and control characters the code and
    [JSON.stringify] look at are all ASCII, and no byte of a multi-byte
    UTF-8 sequence is below 0x80. *)

From Stdlib.Strings Require Import Byte Ascii.
From stdpp Require Import base strings list gmap pretty.
From Equations Require Import Equations.

(** ** Helpers *)

Module Helpers.

(** [String.fromCharCode.apply(null, bytes)]: one character per byte. *)
Fixpoint fromCharCode (bytes : list byte) : string :=
  match bytes with
  | [] => EmptyString
  | b :: rest => String (Ascii.ascii_of_byte b) (fromCharCode rest)
  end.

(** [bytes.subarray(b, e)] for [0 <= b]: the elements at positions
    [b .. min e (length bytes) - 1]. *)
Definition subarray (bytes : list byte) (b e : nat) : list byte :=
  take (e - b) (drop b bytes).

(** The 64 characters of the base64 alphabet used by [btoa]. *)
Definition b64_alphabet : string :=
  "ABCDEFGHIJKLMNOPQRSTUVWXYZabcdefghijklmnopqrstuvwxyz0123456789+/".

Definition b64_char (n : N) : ascii :=
  match String.get (N.to_nat n) b64_alphabet with
  | Some c => c
  | None => "="%char
  end.

(** [btoa]: base64 of a binary string, three characters at a time, padded
    with [=].  The browser function throws on a character code above 255;
    a Rocq [ascii] is 8 bits wide, as is every character that
    [fromCharCode] makes from a [Uint8Array]. *)
Fixpoint btoa (s : string) : string :=
  match s with
  | EmptyString => EmptyString
  | String a EmptyString =>
      let x := N_of_ascii a in
      String (b64_char (N.shiftr x 2))
        (String (b64_char (N.shiftl (N.land x 3) 4)) "==")
  | String a (String b EmptyString) =>
      let x := N_of_ascii a in
      let y := N_of_ascii b in
      String (b64_char (N.shiftr x 2))
        (String (b64_char (N.lor (N.shiftl (N.land x 3) 4) (N.shiftr y 4)))
           (String (b64_char (N.shiftl (N.land y 15) 2)) "="))
  | String a (String b (String c rest)) =>
      let x := N_of_ascii a in
      let y := N_of_ascii b in
      let z := N_of_ascii c in
      String (b64_char (N.shiftr x 2))
        (String (b64_char (N.lor (N.shiftl (N.land x 3) 4) (N.shiftr y 4)))
           (String (b64_char (N.lor (N.shiftl (N.land y 15) 2) (N.shiftr z 6)))
              (String (b64_char (N.land z 63)) (btoa rest))))
  end.

(** [const chunk = 0x8000]. *)
Definition chunk : nat := N.to_nat 0x8000.

(** The [for (let i = 0; i < bytes.length; i += chunk)] loop of
    [bytesToBase64], with the accumulator [binary]. *)
Equations bytesToBase64_loop (bytes : list byte) (i : nat) (binary : string)
  : string by wf (length bytes - i) lt :=
  bytesToBase64_loop bytes i binary with lt_dec i (length bytes) := {
    | left _ =>
        bytesToBase64_loop bytes (i + chunk)
          (binary +:+ fromCharCode (subarray bytes i (i + chunk)))
    | right _ => binary }.
Next Obligation.
  assert (0 < chunk) by (apply Nat.ltb_lt; vm_compute; reflexivity).
  lia.
Qed.

Definition bytesToBase64 (bytes : list byte) : string :=
  btoa (bytesToBase64_loop bytes 0 "").

(** The single-pass encoding the chunked one is compared with: all the
    bytes turned into one binary string at once, then [btoa]. *)
Definition base64_single_pass (bytes : list byte) : string :=
  btoa (fromCharCode bytes).

(** [p.split(/\\|\//)]: the separators are the backslash and the slash. *)
Definition is_sep (c : ascii) : bool :=
  Ascii.eqb c "\"%char || Ascii.eqb c "/"%char.

Fixpoint split_sep (p : string) : list string :=
  match p with
  | EmptyString => [EmptyString]
  | String c rest =>
      if is_sep c then EmptyString :: split_sep rest
      else match split_sep rest with
           | seg :: segs => String c seg :: segs
           | [] => [String c EmptyString]
           end
  end.

(** [Boolean(s)] on a string: the empty string is the only falsy one. *)
Definition truthy (s : string) : bool := negb (String.eqb s "").

(** [parts[parts.length - 1] || p]. *)
Definition getFolderName (p : string) : string :=
  let parts := List.filter truthy (split_sep p) in
  match last parts with
  | Some s => if truthy s then s else p
  | None => p
  end.

End Helpers.
Import Helpers.


(** ** Data model *)

(** [type BuildItem = { id; path; name; coverDataUrl? }]. *)
Module BuildItem.
Record t : Type := mk {
  id : string;
  path : string;
  name : string;
  coverDataUrl : option string;
}.
End BuildItem.

(** The [user] cell: [{ email; password } | null]. *)
Record User : Type := mkUser {
  email : string;
  password : string;
}.

(** What a call to the native host or to the file system API settles to:
    a value, or a rejection carrying [String(e)]. *)
Inductive Result (A : Type) : Type :=
| Ok (a : A)
| Err (e : string).
Arguments Ok {A} a.
Arguments Err {A} e.

(** The value [open({ directory: true })] resolves to:
    [null | string | string[]]. *)
Inductive DialogResult : Type :=
| Cancelled
| Picked (selected : string)
| PickedMany (selected : list string).

(** The value a liveness query resolves to; the code compares it with
    [false] by [===], so anything that is not a boolean counts as
    neither. *)
Inductive JsValue : Type :=
| JsBool (b : bool)
| JsOther.

(** The file system API of the host, as [addBuild] uses it. *)
Record Host : Type := mkHost {
  fs_join : list string -> Result string;
  fs_exists : string -> Result bool;
  fs_readBinaryFile : string -> Result (list byte);
}.

(** What leaves the component, in program order: the calls to the host,
    the timers and the router, and the requests made to the launch-state
    setter. *)
Inductive Event : Type :=
| SetIsLaunching (b : bool)
| InvokeFirstLaunch (path email password : string) (eor : bool)
| InvokeIsRunning
| FsJoin (parts : list string)
| FsExists (p : string)
| FsReadBinaryFile (p : string)
| SetTimeoutClearError (ms : nat)
| SetInterval (ms : nat)
| IntervalFired
| ClearInterval
| Navigate (to : string).

(** The [useState] cells of [Onboard] the core uses, [localStorage], and
    the log of events.  [localStorage] is taken to have room for every
    write. *)
Record World : Type := mkWorld {
  path : option string;
  isLaunching : bool;
  user : option User;
  EOR : bool;
  builds : list BuildItem.t;
  error : option string;
  localStorage : gmap string string;
  log : list Event;
}.

Definition setPath (v : option string) (w : World) : World :=
  mkWorld v (isLaunching w) (user w) (EOR w) (builds w) (error w)
    (localStorage w) (log w).
Definition emit (e : Event) (w : World) : World :=
  mkWorld (path w) (isLaunching w) (user w) (EOR w) (builds w) (error w)
    (localStorage w) (log w ++ [e]).
Definition setIsLaunching (v : bool) (w : World) : World :=
  emit (SetIsLaunching v)
    (mkWorld (path w) v (user w) (EOR w) (builds w) (error w)
       (localStorage w) (log w)).
Definition setUser (v : option User) (w : World) : World :=
  mkWorld (path w) (isLaunching w) v (EOR w) (builds w) (error w)
    (localStorage w) (log w).
Definition setEOR (v : bool) (w : World) : World :=
  mkWorld (path w) (isLaunching w) (user w) v (builds w) (error w)
    (localStorage w) (log w).
Definition setBuilds (v : list BuildItem.t) (w : World) : World :=
  mkWorld (path w) (isLaunching w) (user w) (EOR w) v (error w)
    (localStorage w) (log w).
Definition setError (v : option string) (w : World) : World :=
  mkWorld (path w) (isLaunching w) (user w) (EOR w) (builds w) v
    (localStorage w) (log w).
Definition withStorage (f : gmap string string -> gmap string string)
    (w : World) : World :=
  mkWorld (path w) (isLaunching w) (user w) (EOR w) (builds w) (error w)
    (f (localStorage w)) (log w).

Definition localStorage_setItem (k v : string) : World -> World :=
  withStorage (insert k v).
Definition localStorage_removeItem (k : string) : World -> World :=
  withStorage (delete k).
Definition localStorage_clear : World -> World :=
  withStorage (fun _ => ∅).

(** [setError(msg); setTimeout(() => setError(null), 5000)]. *)
Definition surface (msg : string) (w : World) : World :=
  emit (SetTimeoutClearError 5000) (setError (Some msg) w).

(** ** [JSON.stringify] of the build list *)

Module JSON.

Definition dquote : ascii := ascii_of_nat 34.
Definition backslash : ascii := ascii_of_nat 92.

Definition hex_digit (n : N) : ascii :=
  match String.get (N.to_nat n) "0123456789abcdef" with
  | Some c => c
  | None => "0"%char
  end.

(** One character of a quoted JSON string: the quote and the backslash
    are escaped, the control characters below 0x20 are written by their
    short escape or as [\u00xx], every other character stands for
    itself. *)
Definition quote_char (c : ascii) : string :=
  let n := N_of_ascii c in
  if (n =? 34)%N then String backslash (String dquote EmptyString)
  else if (n =? 92)%N then String backslash (String backslash EmptyString)
  else if (n =? 8)%N then String backslash "b"
  else if (n =? 12)%N then String backslash "f"
  else if (n =? 10)%N then String backslash "n"
  else if (n =? 13)%N then String backslash "r"
  else if (n =? 9)%N then String backslash "t"
  else if (n <? 32)%N then
    String backslash
      ("u00" +:+ String (hex_digit (N.shiftr n 4))
                   (String (hex_digit (N.land n 15)) EmptyString))
  else String c EmptyString.

Fixpoint quote_body (s : string) : string :=
  match s with
  | EmptyString => EmptyString
  | String c rest => quote_char c +:+ quote_body rest
  end.

Definition quote (s : string) : string :=
  String dquote (quote_body s +:+ String dquote EmptyString).

Definition member (k v : string) : string := quote k +:+ ":" +:+ quote v.

(** A [BuildItem]: the keys in insertion order, [coverDataUrl] left out
    when it is [undefined]. *)
Definition stringify_item (b : BuildItem.t) : string :=
  "{" +:+ member "id" (BuildItem.id b)
      +:+ "," +:+ member "path" (BuildItem.path b)
      +:+ "," +:+ member "name" (BuildItem.name b)
      +:+ match BuildItem.coverDataUrl b with
          | Some c => "," +:+ member "coverDataUrl" c
          | None => EmptyString
          end
      +:+ "}".

Fixpoint join_comma (l : list string) : string :=
  match l with
  | [] => EmptyString
  | [x] => x
  | x :: rest => x +:+ "," +:+ join_comma rest
  end.

Definition stringify (bs : list BuildItem.t) : string :=
  "[" +:+ join_comma (stringify_item <$> bs) +:+ "]".

End JSON.

(** ** Computations that may throw

    The body of a [try] block: it threads the world and either yields a
    value or stops at the first rejected [await]. *)

Definition M (A : Type) : Type := World -> World * Result A.

Definition ret {A} (a : A) : M A := fun w => (w, Ok a).

Definition bind {A B} (m : M A) (k : A -> M B) : M B :=
  fun w =>
    match m w with
    | (w1, Ok a) => k a w1
    | (w1, Err e) => (w1, Err e)
    end.

#[global] Instance M_ret : MRet M := @ret.
#[global] Instance M_bind : MBind M := fun A B k m => bind m k.

(** A statement that changes the world and cannot throw. *)
Definition act (f : World -> World) : M unit := fun w => (f w, Ok tt).

(** [await call]: the call is issued (and logged), then settles. *)
Definition await {A} (ev : Event) (r : Result A) : M A :=
  fun w => (emit ev w, r).

(** [try { m } catch (e) { h e }], returning the world after. *)
Definition try_catch (m : M unit) (h : string -> World -> World)
    (w : World) : World :=
  match m w with
  | (w1, Ok _) => w1
  | (w1, Err e) => h e w1
  end.

(** ** The actions of [Onboard] *)

Definition msg_no_build : string :=
  "Please first select a game folder or build in the library.".
Definition msg_no_login : string := "No login details found.".
Definition msg_launch_failed : string := "Fehler beim Start: ".
Definition msg_invalid_build : string :=
  "Invalid build: The folder must contain an 'Engine' folder.".
Definition msg_full : string :=
  "Maximum builds in library reached (16). Remove one first.".
Definition msg_could_not_add : string := "Could not add build: ".

(** [path || builds[0]?.path]: [None] stands for [undefined]. *)
Definition launchPath (w : World) : option string :=
  let first := BuildItem.path <$> head (builds w) in
  match path w with
  | Some p => if truthy p then Some p else first
  | None => first
  end.

(** [handleLaunch] up to its [await]: the world there, and whether the
    launch command was sent (and its reply is awaited). *)
Definition handleLaunch_begin (w0 : World) : World * bool :=
  let w := setIsLaunching true w0 in
  let no_build := (setIsLaunching false (surface msg_no_build w), false) in
  match launchPath w0 with
  | Some lp =>
      if truthy lp then
        match user w0 with
        | Some u =>
            (emit (InvokeFirstLaunch lp (email u) (password u) (EOR w0)) w,
             true)
        | None => (setIsLaunching false (surface msg_no_login w), false)
        end
      else no_build
  | None => no_build
  end.

(** [handleLaunch] after the [await]: nothing on success, the [catch]
    block on a rejection. *)
Definition handleLaunch_resume (reply : Result unit) (w : World) : World :=
  match reply with
  | Ok _ => w
  | Err e => setIsLaunching false (surface (msg_launch_failed +:+ e) w)
  end.

Definition handleLogout (w : World) : World :=
  emit (Navigate "/login")
    (setBuilds [] (setPath None (setUser None (localStorage_clear w)))).

Definition string_of_bool (b : bool) : string :=
  if b then "true" else "false".

Definition handleToggleEOR (next : bool) (w : World) : World :=
  localStorage_setItem "EOR" (string_of_bool next) (setEOR next w).

(** The [try] block of [addBuild].  [builds0] is the [builds] of the
    render the handler closes over; [now] is [Date.now()] and [rnd] is
    [Math.random().toString(36).slice(2, 8)]. *)
Definition addBuild_body (host : Host) (now : N) (rnd : string)
    (selected : string) (builds0 : list BuildItem.t) : M unit :=
  enginePath ← await (FsJoin [selected; "Engine"])
                 (fs_join host [selected; "Engine"]);
  hasEngine ← await (FsExists enginePath) (fs_exists host enginePath);
  if negb hasEngine then act (surface msg_invalid_build)
  else if 16 <=? length builds0 then act (surface msg_full)
  else
    let splashParts :=
      [selected; "FortniteGame"; "Content"; "Splash"; "Splash.bmp"] in
    splashPath ← await (FsJoin splashParts) (fs_join host splashParts);
    hasSplash ← await (FsExists splashPath) (fs_exists host splashPath);
    coverDataUrl ←
      (if hasSplash : bool then
         bytes ← await (FsReadBinaryFile splashPath)
                   (fs_readBinaryFile host splashPath);
         ret (Some ("data:image/bmp;base64," +:+ bytesToBase64 bytes))
       else ret None);
    let item :=
      BuildItem.mk (pretty now +:+ "-" +:+ rnd) selected
        (getFolderName selected) coverDataUrl in
    let updatedBuilds := item :: builds0 in
    act (fun w =>
           localStorage_setItem "PabloMP.builds" (JSON.stringify updatedBuilds)
             (setPath (Some selected) (setBuilds updatedBuilds w))).

Definition addBuild (host : Host) (now : N) (rnd : string)
    (selected : DialogResult) (w : World) : World :=
  match selected with
  | Picked selected =>
      if truthy selected then
        try_catch (addBuild_body host now rnd selected (builds w))
          (fun e => surface (msg_could_not_add +:+ e)) w
      else w
  | Cancelled | PickedMany _ => w
  end.

Definition has_id (id : string) (b : BuildItem.t) : bool :=
  String.eqb (BuildItem.id b) id.

(** [removed && removed.path === path]. *)
Definition removed_is_selected (removed : option BuildItem.t)
    (path : option string) : bool :=
  match removed, path with
  | Some r, Some p => String.eqb (BuildItem.path r) p
  | _, _ => false
  end.

Definition removeBuild (id : string) (w : World) : World :=
  let prev := builds w in
  let next := List.filter (fun b => negb (has_id id b)) prev in
  let removed := List.find (has_id id) prev in
  let w1 := localStorage_setItem "PabloMP.builds" (JSON.stringify next) w in
  let w2 :=
    if removed_is_selected removed (path w) then
      match next with
      | b :: _ => setPath (Some (BuildItem.path b)) w1
      | [] => setPath None w1
      end
    else w1 in
  setBuilds next w2.

(** ** Effects *)

(** [useEffect(() => localStorage.setItem(builds), [builds])]. *)
Definition persist_builds_effect (w : World) : World :=
  localStorage_setItem "PabloMP.builds" (JSON.stringify (builds w)) w.

(** [useEffect(() => path ? setItem(path) : removeItem, [path])]. *)
Definition persist_path_effect (w : World) : World :=
  match path w with
  | Some p =>
      if truthy p then localStorage_setItem "buildPath" p w
      else localStorage_removeItem "buildPath" w
  | None => localStorage_removeItem "buildPath" w
  end.

Definition persist_effects (w : World) : World :=
  persist_path_effect (persist_builds_effect w).

(** [run], first half: the liveness query is sent. *)
Definition run_issue (w : World) : World := emit InvokeIsRunning w.

(** [r === false]. *)
Definition is_false (r : JsValue) : bool :=
  match r with
  | JsBool false => true
  | JsBool true | JsOther => false
  end.

(** [run], second half: the query settles.  [cancelled] is the flag the
    clean-up of the effect sets. *)
Definition run_settle (cancelled : bool) (reply : Result JsValue)
    (w : World) : World :=
  match reply with
  | Ok r => if negb cancelled && is_false r then setIsLaunching false w else w
  | Err _ => if negb cancelled then setIsLaunching false w else w
  end.

(** The clean-up of an effect instance that had started its timer. *)
Definition polling_cleanup (w : World) : World := emit ClearInterval w.

(** The interval callbacks of one effect instance, one reply per firing;
    every query settles before the interval fires again.  The result is
    the world after each settled query; when the state leaves
    [Launching] the effect is cleaned up and the timer is gone. *)
Fixpoint interval_ticks (replies : list (Result JsValue)) (w : World)
    : list World :=
  match replies with
  | [] => []
  | r :: rest =>
      let w1 := run_settle false r (run_issue (emit IntervalFired w)) in
      if isLaunching w1 then w1 :: interval_ticks rest w1
      else [polling_cleanup w1]
  end.

(** The polling effect, run after a render whose [isLaunching] differs
    from the previous one: [run()] at once, then [setInterval(run, 3000)];
    the result starts with the world after the effect body. *)
Definition polling_effect (replies : list (Result JsValue)) (w : World)
    : list World :=
  if isLaunching w then
    let w1 := emit (SetInterval 3000) (run_issue w) in
    w1 ::
    match replies with
    | [] => []
    | r :: rest =>
        let w2 := run_settle false r w1 in
        if isLaunching w2 then w2 :: interval_ticks rest w2
        else [polling_cleanup w2]
    end
  else [w].

(** One launch cycle, started by a click on Play in the Idle state: the
    click, the render that follows (the updates of the synchronous part
    of the handler are applied together), the polling effect of that
    render with the liveness replies that settle before the launch command
    does, and then the reply of the launch command.  The launch command
    and the liveness queries are independent calls: [replies] says how
    many liveness replies come first, none when the launch command
    settles while the first query is in flight.  An accepted command
    changes nothing, whenever it settles.  A rejected one runs the
    [catch] block of [handleLaunch] on the world the loop has reached;
    if that world is still Launching the effect is cleaned up, so that
    every later reply finds [cancelled] set.  A step of the loop (the
    interval fires, the query is sent and settles) is taken as a whole.
    The result lists the world before the click, the world rendered
    after it, and the world after each later step.  A click while
    Launching does not change the rendered [isLaunching], so no new
    polling effect starts; the loop of the launch in progress goes on and
    is not part of this cycle. *)
Definition launch_cycle (launch_reply : Result unit)
    (replies : list (Result JsValue)) (w0 : World) : list World :=
  let '(w1, awaiting) := handleLaunch_begin w0 in
  if negb awaiting || isLaunching w0 then [w0; w1]
  else
    match launch_reply with
    | Ok _ => w0 :: w1 :: tail (polling_effect replies w1)
    | Err _ =>
        let polled := polling_effect replies w1 in
        let w2 := default w1 (last polled) in
        let w3 := handleLaunch_resume launch_reply w2 in
        w0 :: w1 :: tail polled
          ++ [if isLaunching w2 then polling_cleanup w3 else w3]
    end.

(** ** Vocabulary of the statements *)

(** Every character of [s] satisfies [f]. *)
Fixpoint all_chars (f : ascii -> bool) (s : string) : bool :=
  match s with
  | EmptyString => true
  | String c rest => f c && all_chars f rest
  end.

(** A string made of separators only (the empty string included). *)
Definition only_seps (s : string) : bool := all_chars is_sep s.

(** A string with no separator in it. *)
Definition no_sep (s : string) : bool := all_chars (fun c => negb (is_sep c)) s.

(** A prefix after which a path segment starts: nothing, or something
    that ends with a separator. *)
Definition segment_start (pre : string) : Prop :=
  pre = EmptyString \/
  exists pre' c, is_sep c = true /\ pre = pre' +:+ String c EmptyString.

(** A resolved launch path: [launchPath] is neither [undefined] nor the
    empty string. *)
Definition resolved (w : World) : bool :=
  match launchPath w with
  | Some lp => truthy lp
  | None => false
  end.

(** A liveness reply that reads as still running: it neither fails nor
    is [false]. *)
Definition still_running (reply : Result JsValue) : bool :=
  match reply with
  | Ok r => negb (is_false r)
  | Err _ => false
  end.

Definition is_query (e : Event) : bool :=
  match e with
  | InvokeIsRunning => true
  | _ => false
  end.

(** The number of liveness queries in a log. *)
Definition count_queries (l : list Event) : nat :=
  length (List.filter is_query l).

(** The operations on the registry, with what the environment answers
    to each [addBuild]. *)
Inductive Op : Type :=
| OpAdd (host : Host) (now : N) (rnd : string) (selected : DialogResult)
| OpRemove (id : string).

Definition step (op : Op) (w : World) : World :=
  match op with
  | OpAdd host now rnd selected => addBuild host now rnd selected w
  | OpRemove id => removeBuild id w
  end.

(** The worlds a sequence of operations goes through, the first one
    included. *)
Fixpoint trace (ops : list Op) (w : World) : list World :=
  w :: match ops with
       | [] => []
       | op :: rest => trace rest (step op w)
       end.

Definition run (ops : list Op) (w : World) : World :=
  foldl (fun w op => step op w) w ops.

(** ** Concrete inputs *)

Module Sample.

(** [join] with a slash between the parts. *)
Fixpoint join_slash (parts : list string) : string :=
  match parts with
  | [] => EmptyString
  | [x] => x
  | x :: rest => x +:+ "/" +:+ join_slash rest
  end.

(** A host on which exactly the paths of [present] exist and every file
    read settles to [content]. *)
Definition host_with (present : list string) (content : Result (list byte))
    : Host :=
  mkHost (fun parts => Ok (join_slash parts))
         (fun p => Ok (bool_decide (p ∈ present)))
         (fun _ => content).

Definition engine_dir : string := "/games/Foo/Engine".
Definition splash_file : string :=
  "/games/Foo/FortniteGame/Content/Splash/Splash.bmp".

(** [/games/Foo] is an installation without a splash image. *)
Definition host_plain : Host :=
  host_with [engine_dir] (Err "path not found").

(** [/games/Foo] has a splash image of two bytes. *)
Definition host_cover : Host :=
  host_with [engine_dir; splash_file] (Ok [x42; x4d]%byte).

(** [/games/Foo] has a splash image that cannot be read. *)
Definition host_unreadable : Host :=
  host_with [engine_dir; splash_file] (Err "permission denied").

Definition w_empty : World := mkWorld None false None false [] None ∅ [].

Definition alice : User := mkUser "alice@example.org" "hunter22".

(** Sixteen adds of [/games/Foo], one millisecond apart. *)
Definition sixteen_adds : list Op :=
  (fun n => OpAdd host_plain (1760000000000 + N.of_nat n) "k3j9zq"
              (Picked "/games/Foo")) <$> seq 0 16.

Definition w_full : World := run sixteen_adds w_empty.

(** One build in the library, selected, and a session. *)
Definition w_ready : World :=
  setUser (Some alice)
    (addBuild host_plain 1760000000000 "k3j9zq" (Picked "/games/Foo") w_empty).

Definition foo : BuildItem.t :=
  BuildItem.mk "1-aaaaaa" "/games/Foo" "Foo" None.
Definition bar : BuildItem.t :=
  BuildItem.mk "2-bbbbbb" "/games/Bar" "Bar" None.

(** Two builds, the first one selected, the store in step with them. *)
Definition w_two : World :=
  mkWorld (Some "/games/Foo") false (Some alice) false [foo; bar] None
    {[ "PabloMP.builds" := JSON.stringify [foo; bar];
       "buildPath" := "/games/Foo" ]} [].

End Sample.

(** ** The rest of the component *)

(** [b.path === path] for the [path] cell. *)
Definition is_path (path : option string) (b : BuildItem.t) : bool :=
  match path with
  | Some p => String.eqb (BuildItem.path b) p
  | None => false
  end.

(** [builds.find((b) => b.path === path) ?? builds[0]]: the build the
    hero banner shows. *)
Definition current (w : World) : option BuildItem.t :=
  match List.find (is_path (path w)) (builds w) with
  | Some b => Some b
  | None => head (builds w)
  end.

(** The Select button of the [i]-th card of the library:
    [setPath(b.path)].  There is no card beyond the list. *)
Definition selectBuild (i : nat) (w : World) : World :=
  match builds w !! i with
  | Some b => setPath (Some (BuildItem.path b)) w
  | None => w
  end.

(** The Play button of the [i]-th card:
    [setPath(b.path); handleLaunch()], up to the [await].  [handleLaunch]
    is the function of the render the card belongs to: it reads the
    [path] of that render, not the one just requested. *)
Definition playBuild (i : nat) (w : World) : World * bool :=
  match builds w !! i with
  | Some b =>
      let '(w1, awaiting) := handleLaunch_begin w in
      (setPath (Some (BuildItem.path b)) w1, awaiting)
  | None => (w, false)
  end.

(** [JSON.parse] on the two stored values, as the environment answers
    it: a value of the shape the code casts it to, or a [SyntaxError]. *)
Record JsonParse : Type := mkJsonParse {
  parse_user : string -> Result (option User);
  parse_builds : string -> Result (list BuildItem.t);
}.

Definition localStorage_getItem (k : string) (w : World) : option string :=
  localStorage w !! k.

(** [if (s)] on what [getItem] returned: neither [null] nor empty. *)
Definition present (s : option string) : bool :=
  match s with
  | Some v => truthy v
  | None => false
  end.

(** The first effect of [Onboard]: the state is read back from
    [localStorage]. *)
Definition load_effect (js : JsonParse) (w : World) : World :=
  let savedPath := localStorage_getItem "buildPath" w in
  let w1 := if present savedPath then setPath savedPath w else w in
  let savedUser := localStorage_getItem "user" w in
  let w2 :=
    match savedUser with
    | Some s =>
        if truthy s then
          match parse_user js s with
          | Ok u => setUser u w1
          | Err _ => w1
          end
        else w1
    | None => w1
    end in
  let w3 :=
    match localStorage_getItem "EOR" w with
    | Some rawEOR => setEOR (String.eqb rawEOR "true") w2
    | None => w2
    end in
  match localStorage_getItem "PabloMP.builds" w with
  | Some s =>
      if truthy s then
        match parse_builds js s with
        | Ok parsed =>
            let w4 := setBuilds parsed w3 in
            match parsed with
            | b :: _ =>
                if negb (present savedPath)
                then setPath (Some (BuildItem.path b)) w4
                else w4
            | [] => w4
            end
        | Err _ => w3
        end
      else w3
  | None => w3
  end.

(** The cells of the first render, over a given store. *)
Definition initial_world (store : gmap string string) : World :=
  mkWorld None false None false [] None store [].

(** The start of the component over a store.  After the first render
    the effects run in the order they are declared, each with the values
    of that render: the load effect reads the store and asks for the
    loaded state, then the two persistence effects write the empty list
    and drop the selected path.  The render that follows has the loaded
    state, and the persistence effects write it back. *)
Definition startup (js : JsonParse) (store : gmap string string) : World :=
  let w0 := initial_world store in
  let loaded := load_effect js w0 in
  let first_pass := localStorage (persist_effects w0) in
  persist_effects (withStorage (fun _ => first_pass) loaded).

(** What the user does to the library. *)
Inductive Action : Type :=
| ActAdd (host : Host) (now : N) (rnd : string) (selected : DialogResult)
| ActRemove (id : string)
| ActSelect (i : nat)
| ActPlay (i : nat)
| ActLogout.

Definition perform (a : Action) (w : World) : World :=
  match a with
  | ActAdd host now rnd selected => addBuild host now rnd selected w
  | ActRemove id => removeBuild id w
  | ActSelect i => selectBuild i w
  | ActPlay i => (playBuild i w).1
  | ActLogout => handleLogout w
  end.

(** The worlds a sequence of actions goes through, the first one
    included. *)
Fixpoint act_trace (acts : list Action) (w : World) : list World :=
  w :: match acts with
       | [] => []
       | a :: rest => act_trace rest (perform a w)
       end.

(** The id [addBuild] gives to a new entry. *)
Definition new_id (now : N) (rnd : string) : string :=
  pretty now +:+ "-" +:+ rnd.

Definition ids (w : World) : list string := BuildItem.id <$> builds w.

(** Every add of the sequence draws an id no entry has at that time. *)
Fixpoint fresh_ids (acts : list Action) (w : World) : Prop :=
  match acts with
  | [] => True
  | a :: rest =>
      match a with
      | ActAdd _ now rnd _ => new_id now rnd ∉ ids w
      | _ => True
      end /\ fresh_ids rest (perform a w)
  end.

(** The selected path is empty or the path of an entry. *)
Definition selection_valid (w : World) : Prop :=
  match path w with
  | Some p => exists b, b ∈ builds w /\ BuildItem.path b = p
  | None => True
  end.

(** An entry as [addBuild] makes them: a non-empty path, and the folder
    name of that path as its name. *)
Definition well_named (b : BuildItem.t) : Prop :=
  BuildItem.path b <> EmptyString /\
  BuildItem.name b = getFolderName (BuildItem.path b).

(** The stored list is the registry. *)
Definition builds_persisted (w : World) : Prop :=
  localStorage w !! "PabloMP.builds" = Some (JSON.stringify (builds w)).

(** The stored selected path is the [path] cell, an empty selection
    being no key at all. *)
Definition path_persisted (w : World) : Prop :=
  localStorage w !! "buildPath"
  = match path w with
    | Some p => if truthy p then Some p else None
    | None => None
    end.

(** The state of a registry the component keeps to: at most 16
    entries, no id twice, a selection that is empty or the path of an
    entry, and entries named after their folders. *)
Definition registry_ok (w : World) : Prop :=
  length (builds w) <= 16 /\ NoDup (ids w) /\
  selection_valid w /\ Forall well_named (builds w).

(** What the file system answers when [addBuild] goes through: the
    folder has Engine, and the splash image is absent ([None]) or read
    ([Some bytes]). *)
Definition accepted (host : Host) (p : string) (cover : option (list byte))
    : Prop :=
  exists ep sp,
    fs_join host [p; "Engine"] = Ok ep /\
    fs_exists host ep = Ok true /\
    fs_join host [p; "FortniteGame"; "Content"; "Splash"; "Splash.bmp"]
      = Ok sp /\
    match cover with
    | None => fs_exists host sp = Ok false
    | Some bytes =>
        fs_exists host sp = Ok true /\ fs_readBinaryFile host sp = Ok bytes
    end.

(** The cover of an entry made from what was read. *)
Definition cover_of (read : option (list byte)) : option string :=
  (fun bytes => "data:image/bmp;base64," +:+ bytesToBase64 bytes) <$> read.

(** A [JSON.parse] that reads the serialisation of the list [bs] back
    as [bs], and rejects every other text. *)
Definition parse_only (bs : list BuildItem.t) : JsonParse :=
  mkJsonParse
    (fun _ => Err "SyntaxError")
    (fun s => if String.eqb s (JSON.stringify bs) then Ok bs
              else Err "SyntaxError").

(** ** The login form (src/login.tsx) *)

Module JsString.

(** A continuation byte of UTF-8. *)
Definition is_cont (c : ascii) : bool :=
  let n := N_of_ascii c in (128 <=? n)%N && (n <? 192)%N.

Definition cont_bits (c : ascii) : N := N.land (N_of_ascii c) 63.

(** The code points of a text in UTF-8.  A byte that starts no
    well-formed sequence reads as U+FFFD; no JavaScript string has such
    a byte in its UTF-8 form. *)
Fixpoint code_points (s : string) : list N :=
  match s with
  | EmptyString => []
  | String a rest =>
      let x := N_of_ascii a in
      if (x <? 128)%N then x :: code_points rest
      else
        match rest with
        | String b rest1 =>
            if (194 <=? x)%N && (x <? 224)%N && is_cont b then
              N.lor (N.shiftl (N.land x 31) 6) (cont_bits b)
                :: code_points rest1
            else
              match rest1 with
              | String c rest2 =>
                  if (224 <=? x)%N && (x <? 240)%N && is_cont b && is_cont c
                  then
                    N.lor (N.shiftl (N.land x 15) 12)
                      (N.lor (N.shiftl (cont_bits b) 6) (cont_bits c))
                      :: code_points rest2
                  else
                    match rest2 with
                    | String d rest3 =>
                        if (240 <=? x)%N && (x <? 245)%N
                           && is_cont b && is_cont c && is_cont d
                        then
                          N.lor (N.shiftl (N.land x 7) 18)
                            (N.lor (N.shiftl (cont_bits b) 12)
                               (N.lor (N.shiftl (cont_bits c) 6)
                                  (cont_bits d)))
                            :: code_points rest3
                        else 65533%N :: code_points rest
                    | EmptyString => 65533%N :: code_points rest
                    end
              | EmptyString => 65533%N :: code_points rest
              end
        | EmptyString => [65533%N]
        end
  end.

(** The UTF-16 code units of a code point: itself, or a surrogate pair
    above the basic plane. *)
Definition units_of (cp : N) : list N :=
  if (cp <? 65536)%N then [cp]
  else [(55296 + N.shiftr (cp - 65536) 10)%N;
        (56320 + N.land (cp - 65536) 1023)%N].

(** The string as JavaScript has it: a sequence of UTF-16 code units. *)
Definition code_units (s : string) : list N :=
  concat (units_of <$> code_points s).

(** [s.length]. *)
Definition js_length (s : string) : nat := length (code_units s).

(** What [\s] matches: the white space and the line terminators of
    ECMAScript. *)
Definition is_space (u : N) : bool :=
  ((9 <=? u)%N && (u <=? 13)%N) || (u =? 32)%N || (u =? 160)%N
  || (u =? 5760)%N || ((8192 <=? u)%N && (u <=? 8202)%N)
  || (u =? 8232)%N || (u =? 8233)%N || (u =? 8239)%N || (u =? 8287)%N
  || (u =? 12288)%N || (u =? 65279)%N.

(** What [\S] matches. *)
Definition nonspace (u : N) : bool := negb (is_space u).

End JsString.
Import JsString.

Module EmailRegex.

Definition at_sign : N := 64.
Definition dot : N := 46.

(** The words of [\S+@\S+\.\S+]. *)
Definition matches (m : list N) : Prop :=
  exists a b c,
    m = a ++ at_sign :: b ++ dot :: c /\
    a <> [] /\ b <> [] /\ c <> [] /\
    forallb nonspace a = true /\ forallb nonspace b = true /\
    forallb nonspace c = true.

(** [/\S+@\S+\.\S+/.test(s)]: some part of [s] is a word of the
    expression. *)
Definition found_in (l : list N) : Prop :=
  exists pre m post, l = pre ++ m ++ post /\ matches m.

(** The search for a dot that is followed by a character other than
    white space, across characters other than white space. *)
Fixpoint dot_then_nonspace (l : list N) : bool :=
  match l with
  | [] => false
  | u :: rest =>
      ((u =? dot)%N && match rest with
                       | v :: _ => nonspace v
                       | [] => false
                       end)
      || (nonspace u && dot_then_nonspace rest)
  end.

(** What has to follow the at sign. *)
Definition after_at (l : list N) : bool :=
  match l with
  | [] => false
  | u :: rest => nonspace u && dot_then_nonspace rest
  end.

(** The test, run from left to right. *)
Fixpoint test (l : list N) : bool :=
  match l with
  | [] => false
  | u :: rest =>
      (nonspace u && match rest with
                     | v :: rest' => (v =? at_sign)%N && after_at rest'
                     | [] => false
                     end)
      || test rest
  end.

End EmailRegex.

(** The cells of [Login], [localStorage] and the log of the router. *)
Record LoginWorld : Type := mkLoginWorld {
  form_email : string;
  form_password : string;
  loading : bool;
  login_error : option string;
  login_storage : gmap string string;
  login_log : list Event;
}.

Inductive Field : Type := FieldEmail | FieldPassword.

(** [setForm((prev) => ({ ...prev, [name]: value }))], for the two
    inputs of the form. *)
Definition handleChange (name : Field) (value : string) (w : LoginWorld)
    : LoginWorld :=
  match name with
  | FieldEmail =>
      mkLoginWorld value (form_password w) (loading w) (login_error w)
        (login_storage w) (login_log w)
  | FieldPassword =>
      mkLoginWorld (form_email w) value (loading w) (login_error w)
        (login_storage w) (login_log w)
  end.

Definition msg_bad_email : string := "Please enter a valid email address.".
Definition msg_short_password : string :=
  "Password must be at least 6 characters long.".

(** [JSON.stringify({ ...form, username: form.email })]. *)
Definition stringify_user (email password : string) : string :=
  "{" +:+ JSON.member "email" email
      +:+ "," +:+ JSON.member "password" password
      +:+ "," +:+ JSON.member "username" email
      +:+ "}".

(** [handleSubmit]: [setError(null)], the two checks, then the [try]
    block between [setLoading(true)] and [setLoading(false)].  [remember]
    is the constant [true], and the store is taken to have room, so that
    the [catch] block is never entered. *)
Definition handleSubmit (w : LoginWorld) : LoginWorld :=
  let result (e : option string) (l : bool) (st : gmap string string)
      (lg : list Event) :=
    mkLoginWorld (form_email w) (form_password w) l e st lg in
  let emailOk := EmailRegex.test (code_units (form_email w)) in
  if negb emailOk then
    result (Some msg_bad_email) (loading w) (login_storage w) (login_log w)
  else if js_length (form_password w) <? 6 then
    result (Some msg_short_password) (loading w) (login_storage w)
      (login_log w)
  else
    result None false
      (<["user" := stringify_user (form_email w) (form_password w)]>
         (login_storage w))
      (login_log w ++ [Navigate "/onboard"]).

(** A [JSON.parse] that reads the stored session of [u] back as [u] and
    the text of the empty list as the empty list, and rejects every other
    text. *)
Definition parse_session (u : User) : JsonParse :=
  mkJsonParse
    (fun s => if String.eqb s (stringify_user (email u) (password u))
              then Ok (Some u) else Err "SyntaxError")
    (fun s => if String.eqb s "[]" then Ok [] else Err "SyntaxError").

(** The form as it is valid for [handleSubmit]. *)
Definition form_valid (w : LoginWorld) : Prop :=
  EmailRegex.found_in (code_units (form_email w)) /\
  6 <= js_length (form_password w).

(** ** Reading a serialised entry back

    A reader for the texts [JSON.stringify_item] writes, used to show
    that they keep everything of an entry. *)

Module JSONRead.

(** [s] without the given prefix. *)
Fixpoint strip (prefix s : string) : option string :=
  match prefix with
  | EmptyString => Some s
  | String c p =>
      match s with
      | String d t => if Ascii.eqb c d then strip p t else None
      | EmptyString => None
      end
  end.

Definition hex_value (c : ascii) : option N :=
  let n := N_of_ascii c in
  if (48 <=? n)%N && (n <=? 57)%N then Some (n - 48)%N
  else if (97 <=? n)%N && (n <=? 102)%N then Some (n - 87)%N
  else None.

(** The character a short escape stands for. *)
Definition unescape (e : ascii) : option ascii :=
  if Ascii.eqb e JSON.dquote then Some JSON.dquote
  else if Ascii.eqb e JSON.backslash then Some JSON.backslash
  else if Ascii.eqb e "b" then Some (ascii_of_nat 8)
  else if Ascii.eqb e "f" then Some (ascii_of_nat 12)
  else if Ascii.eqb e "n" then Some (ascii_of_nat 10)
  else if Ascii.eqb e "r" then Some (ascii_of_nat 13)
  else if Ascii.eqb e "t" then Some (ascii_of_nat 9)
  else None.

Definition prepend (c : ascii) (r : string * string) : string * string :=
  (String c r.1, r.2).

(** A quoted text from after its opening quote to its closing quote, and
    what follows it. *)
Fixpoint read_body (s : string) : option (string * string) :=
  match s with
  | EmptyString => None
  | String c rest =>
      if Ascii.eqb c JSON.dquote then Some (EmptyString, rest)
      else if Ascii.eqb c JSON.backslash then
        match rest with
        | String e rest1 =>
            if Ascii.eqb e "u" then
              match rest1 with
              | String z1 (String z2 (String h1 (String h2 rest2))) =>
                  match hex_value h1, hex_value h2 with
                  | Some a, Some b =>
                      if Ascii.eqb z1 "0" && Ascii.eqb z2 "0" then
                        prepend (ascii_of_N (16 * a + b)) <$> read_body rest2
                      else None
                  | _, _ => None
                  end
              | _ => None
              end
            else
              match unescape e with
              | Some c' => prepend c' <$> read_body rest1
              | None => None
              end
        | EmptyString => None
        end
      else prepend c <$> read_body rest
  end.

Definition read_quoted (s : string) : option (string * string) :=
  match s with
  | String c rest => if Ascii.eqb c JSON.dquote then read_body rest else None
  | EmptyString => None
  end.

(** [key: text] after the given opening, e.g. a brace or a comma. *)
Definition read_member (opening key s : string) : option (string * string) :=
  s1 ← strip (opening +:+ JSON.quote key +:+ ":") s;
  read_quoted s1.

Definition read_item (s : string) : option (BuildItem.t * string) :=
  '(id, s1) ← read_member "{" "id" s;
  '(path, s2) ← read_member "," "path" s1;
  '(name, s3) ← read_member "," "name" s2;
  match read_member "," "coverDataUrl" s3 with
  | Some (cover, s4) =>
      s5 ← strip "}" s4; Some (BuildItem.mk id path name (Some cover), s5)
  | None =>
      s5 ← strip "}" s3; Some (BuildItem.mk id path name None, s5)
  end.

End JSONRead.

(** * Theorems *)

(** ** Facts about strings *)

Lemma append_cons (c : ascii) (s t : string) :
  String c s +:+ t = String c (s +:+ t).
Proof. reflexivity. Qed.

Lemma append_nil_r (s : string) : s +:+ EmptyString = s.
Proof.
  induction s as [|c s IH]; [reflexivity | by rewrite append_cons, IH].
Qed.

Lemma append_assoc (s t u : string) : (s +:+ t) +:+ u = s +:+ (t +:+ u).
Proof.
  induction s as [|c s IH]; [reflexivity | by rewrite !append_cons, IH].
Qed.

(** ** The binary-to-text encoding *)

Lemma fromCharCode_app (l1 l2 : list byte) :
  fromCharCode (l1 ++ l2) = fromCharCode l1 +:+ fromCharCode l2.
Proof.
  induction l1 as [|b l1 IH]; [reflexivity |].
  cbn [fromCharCode app]. by rewrite append_cons, IH.
Qed.

(** A chunk that starts at [i], followed by the rest of the buffer, is
    the buffer from [i] on. *)
Lemma subarray_then_rest (bytes : list byte) (i : nat) :
  subarray bytes i (i + chunk) ++ drop (i + chunk) bytes = drop i bytes.
Proof.
  unfold subarray.
  replace (i + chunk - i) with chunk by lia.
  rewrite <- (drop_drop bytes chunk i).
  apply take_drop.
Qed.

(** The loop appends to [binary] the characters of the bytes from [i]
    on. *)
Lemma bytesToBase64_loop_spec (bytes : list byte) (i : nat) (binary : string) :
  bytesToBase64_loop bytes i binary = binary +:+ fromCharCode (drop i bytes).
Proof.
  funelim (bytesToBase64_loop bytes i binary).
  - match goal with
    | IH : bytesToBase64_loop _ _ _ = _ +:+ fromCharCode _ |- _ => rewrite IH
    end.
    rewrite append_assoc, <- fromCharCode_app, subarray_then_rest.
    reflexivity.
  - rewrite drop_ge by lia. simpl. by rewrite append_nil_r.
Qed.

(** C9: for every byte array, the chunked encoding of [bytesToBase64]
    (the buffer turned into a binary string 0x8000 bytes at a time, then
    [btoa]) gives exactly the string of the single-pass encoding of the
    whole buffer. *)
Theorem C9_chunked_base64_is_single_pass (bytes : list byte) :
  bytesToBase64 bytes = base64_single_pass bytes.
Proof.
  unfold bytesToBase64, base64_single_pass.
  rewrite bytesToBase64_loop_spec.
  reflexivity.
Qed.

(** ** The folder name *)

Lemma split_sep_nonempty (p : string) : split_sep p <> [].
Proof.
  destruct p as [|c p]; simpl; [discriminate |].
  destruct (is_sep c); [discriminate |].
  destruct (split_sep p); discriminate.
Qed.

(** Splitting at a separator splits the list of segments. *)
Lemma split_sep_at_sep (pre : string) (c : ascii) (t : string) :
  is_sep c = true ->
  split_sep (pre +:+ String c t) = split_sep pre ++ split_sep t.
Proof.
  intros Hc. induction pre as [|a pre IH].
  - cbn [String.append split_sep]. simpl. by rewrite Hc.
  - rewrite append_cons. cbn [split_sep]. rewrite IH.
    destruct (is_sep a); [reflexivity |].
    pose proof (split_sep_nonempty pre) as Hne.
    destruct (split_sep pre) as [|x xs]; [done | reflexivity].
Qed.

(** A run of characters that are no separators stays in front of the
    first segment of what follows. *)
Lemma split_sep_no_sep_app (seg t : string) :
  no_sep seg = true ->
  exists x xs, split_sep t = x :: xs /\
               split_sep (seg +:+ t) = (seg +:+ x) :: xs.
Proof.
  unfold no_sep. induction seg as [|a seg IH]; intros Hseg.
  - pose proof (split_sep_nonempty t) as Hne.
    destruct (split_sep t) as [|x xs] eqn:Ht; [done |].
    exists x, xs. split; [done |]. exact Ht.
  - cbn [all_chars] in Hseg. apply andb_prop in Hseg as [Ha Hseg].
    destruct (IH Hseg) as (x & xs & Ht & Happ).
    exists x, xs. split; [done |].
    rewrite append_cons. cbn [split_sep].
    apply negb_true_iff in Ha. rewrite Ha, Happ. by rewrite append_cons.
Qed.

(** Separators alone give empty segments only. *)
Lemma split_sep_only_seps (s : string) :
  only_seps s = true -> List.filter truthy (split_sep s) = [].
Proof.
  unfold only_seps. induction s as [|c s IH]; intros Hs; [reflexivity |].
  cbn [all_chars] in Hs. apply andb_prop in Hs as [Hc Hs].
  cbn [split_sep]. rewrite Hc. simpl. by apply IH.
Qed.

Lemma truthy_nonempty (s : string) : s <> EmptyString -> truthy s = true.
Proof. by destruct s. Qed.

(** The segments of a segment followed by separators only. *)
Lemma filter_split_sep_last_segment (seg suf : string) :
  seg <> EmptyString -> no_sep seg = true -> only_seps suf = true ->
  List.filter truthy (split_sep (seg +:+ suf)) = [seg].
Proof.
  intros Hne Hseg Hsuf.
  destruct (split_sep_no_sep_app seg suf Hseg) as (x & xs & Ht & Happ).
  pose proof (split_sep_only_seps suf Hsuf) as Hfil.
  rewrite Ht in Hfil. rewrite Happ. cbn [List.filter] in *.
  destruct x as [|a x].
  - rewrite append_nil_r, (truthy_nonempty seg Hne).
    simpl in Hfil. by rewrite Hfil.
  - simpl in Hfil. discriminate.
Qed.

Lemma getFolderName_last_segment (pre seg suf : string) :
  segment_start pre ->
  seg <> EmptyString -> no_sep seg = true -> only_seps suf = true ->
  getFolderName (pre +:+ seg +:+ suf) = seg.
Proof.
  intros Hpre Hne Hseg Hsuf. unfold getFolderName.
  pose proof (filter_split_sep_last_segment seg suf Hne Hseg Hsuf) as Hlast.
  destruct Hpre as [-> | (pre' & c & Hc & ->)].
  - cbn [String.append]. change (EmptyString +:+ ?s) with s.
    rewrite Hlast. simpl. by rewrite (truthy_nonempty seg Hne).
  - rewrite append_assoc, append_cons.
    change (EmptyString +:+ ?s) with s.
    rewrite (split_sep_at_sep pre' c _ Hc), List.filter_app, Hlast.
    rewrite last_snoc. by rewrite (truthy_nonempty seg Hne).
Qed.

Lemma getFolderName_only_seps (p : string) :
  only_seps p = true -> getFolderName p = p.
Proof.
  intros Hp. unfold getFolderName.
  by rewrite (split_sep_only_seps p Hp).
Qed.

(** ** Adding a build *)

Ltac unfold_addBuild :=
  unfold addBuild, try_catch, addBuild_body;
  unfold mbind, M_bind, bind, await, act, mret, M_ret, ret.

Lemma cons_neq_self {A} (x : A) (l : list A) : x :: l <> l.
Proof. intros H. apply (f_equal length) in H. simpl in H. lia. Qed.

(** Whatever the host answers, [addBuild] either leaves the registry, the
    selection and the store as they are, or puts one new build for the
    picked folder in front of a registry of fewer than 16. *)
Lemma addBuild_cases (host : Host) (now : N) (rnd : string)
    (selected : DialogResult) (w : World) :
  let w' := addBuild host now rnd selected w in
  (builds w' = builds w /\ path w' = path w /\
   localStorage w' = localStorage w) \/
  (exists p cover,
     selected = Picked p /\ length (builds w) < 16 /\
     builds w' =
       BuildItem.mk (pretty now +:+ "-" +:+ rnd) p (getFolderName p) cover
         :: builds w /\
     path w' = Some p /\
     localStorage w' =
       <["PabloMP.builds" := JSON.stringify (builds w')]> (localStorage w) /\
     error w' = error w).
Proof.
  unfold_addBuild.
  destruct selected as [|p|ps]; [by left| |by left].
  destruct (truthy p); [|by left].
  destruct (fs_join host [p; "Engine"]) as [ep|e]; [|by left].
  destruct (fs_exists host ep) as [[|]|e]; [|by left|by left].
  cbn [negb].
  destruct (16 <=? length (builds w)) eqn:Hlen; [by left|].
  apply Nat.leb_gt in Hlen.
  destruct (fs_join host _) as [sp|e]; [|by left].
  destruct (fs_exists host sp) as [[|]|e]; [| |by left].
  - destruct (fs_readBinaryFile host sp) as [bytes|e]; [|by left].
    right. eexists p, _. cbn. by repeat split.
  - right. eexists p, _. cbn. by repeat split.
Qed.

(** C8: for every candidate path lacking the Engine subdirectory, add
    leaves the entry list (so its length and order), the selected path and
    the persisted store exactly as they were, and the candidate is
    rejected with the invalid-build error. *)
Theorem C8_invalid_candidate_changes_nothing (host : Host) (now : N)
    (rnd p ep : string) (w : World) :
  truthy p = true ->
  fs_join host [p; "Engine"] = Ok ep ->
  fs_exists host ep = Ok false ->
  let w' := addBuild host now rnd (Picked p) w in
  builds w' = builds w /\ path w' = path w /\
  localStorage w' = localStorage w /\
  error w' = Some msg_invalid_build.
Proof.
  intros Hp Hjoin Hex. unfold_addBuild.
  rewrite Hp, Hjoin, Hex. cbn. done.
Qed.

Lemma C8_witness :
  truthy "/games/Bar" = true /\
  fs_exists Sample.host_plain "/games/Bar/Engine" = Ok false /\
  let w' := addBuild Sample.host_plain 1760000000000 "k3j9zq"
              (Picked "/games/Bar") Sample.w_two in
  builds w' = builds Sample.w_two /\ path w' = path Sample.w_two /\
  localStorage w' = localStorage Sample.w_two /\
  error w' = Some msg_invalid_build.
Proof.
  split; [reflexivity |]. split; [reflexivity |].
  apply (C8_invalid_candidate_changes_nothing Sample.host_plain
           1760000000000 "k3j9zq" "/games/Bar" "/games/Bar/Engine"
           Sample.w_two); reflexivity.
Defined.

(** C1, as the code has it: for a candidate directory that contains
    Engine (and a registry below its capacity), an absent splash image
    gives an entry with no cover and a readable one gives an entry with
    the data URI of its bytes; a failure while probing or reading the
    splash image aborts the add: no entry is created, the registry, the
    selection and the store are unchanged, and the error is surfaced as
    [Could not add build: ...]. *)
Theorem C1_cover_outcomes (host : Host) (now : N) (rnd p ep sp : string)
    (w : World) :
  truthy p = true ->
  length (builds w) < 16 ->
  fs_join host [p; "Engine"] = Ok ep ->
  fs_exists host ep = Ok true ->
  fs_join host [p; "FortniteGame"; "Content"; "Splash"; "Splash.bmp"]
    = Ok sp ->
  let w' := addBuild host now rnd (Picked p) w in
  let item := BuildItem.mk (pretty now +:+ "-" +:+ rnd) p (getFolderName p) in
  (fs_exists host sp = Ok false ->
   builds w' = item None :: builds w /\ path w' = Some p) /\
  (forall bytes,
     fs_exists host sp = Ok true ->
     fs_readBinaryFile host sp = Ok bytes ->
     builds w' =
       item (Some ("data:image/bmp;base64," +:+ bytesToBase64 bytes))
         :: builds w /\
     path w' = Some p) /\
  (forall e,
     fs_exists host sp = Err e \/
     (fs_exists host sp = Ok true /\ fs_readBinaryFile host sp = Err e) ->
     builds w' = builds w /\ path w' = path w /\
     localStorage w' = localStorage w /\
     error w' = Some (msg_could_not_add +:+ e)).
Proof.
  intros Hp Hlen Hjoin Hex Hsplash.
  apply Nat.leb_gt in Hlen.
  unfold_addBuild. rewrite Hp, Hjoin, Hex. cbn [negb].
  rewrite Hlen, Hsplash.
  split; [|split].
  - intros ->. cbn. done.
  - intros bytes -> ->. cbn. done.
  - intros e [-> | [-> ->]]; cbn; done.
Qed.

Lemma C1_witness :
  (let w' := addBuild Sample.host_plain 1760000000000 "k3j9zq"
               (Picked "/games/Foo") Sample.w_empty in
   builds w' =
     [BuildItem.mk "1760000000000-k3j9zq" "/games/Foo" "Foo" None] /\
   path w' = Some "/games/Foo") /\
  (let w' := addBuild Sample.host_cover 1760000000000 "k3j9zq"
               (Picked "/games/Foo") Sample.w_empty in
   builds w' =
     [BuildItem.mk "1760000000000-k3j9zq" "/games/Foo" "Foo"
        (Some "data:image/bmp;base64,Qk0=")] /\
   path w' = Some "/games/Foo") /\
  (let w' := addBuild Sample.host_unreadable 1760000000000 "k3j9zq"
               (Picked "/games/Foo") Sample.w_empty in
   builds w' = [] /\ path w' = None /\ localStorage w' = ∅ /\
   error w' = Some "Could not add build: permission denied").
Proof.
  split; [|split].
  - apply (C1_cover_outcomes Sample.host_plain 1760000000000 "k3j9zq"
             "/games/Foo" Sample.engine_dir Sample.splash_file Sample.w_empty);
      first [reflexivity | (simpl; lia)].
  - apply (C1_cover_outcomes Sample.host_cover 1760000000000 "k3j9zq"
             "/games/Foo" Sample.engine_dir Sample.splash_file Sample.w_empty)
      with (bytes := [x42; x4d]%byte);
      first [reflexivity | (simpl; lia)].
  - apply (C1_cover_outcomes Sample.host_unreadable 1760000000000 "k3j9zq"
             "/games/Foo" Sample.engine_dir Sample.splash_file Sample.w_empty)
      with (e := "permission denied");
      first [reflexivity | (simpl; lia) | (right; split; reflexivity)].
Defined.

(** C1 as stated fails: the folder contains Engine and a splash image
    whose read is rejected, and add appends no entry. *)
Lemma C1_counterexample :
  fs_exists Sample.host_unreadable Sample.engine_dir = Ok true /\
  fs_readBinaryFile Sample.host_unreadable Sample.splash_file
    = Err "permission denied" /\
  let w' := addBuild Sample.host_unreadable 1760000000000 "k3j9zq"
              (Picked "/games/Foo") Sample.w_empty in
  builds w' = builds Sample.w_empty /\
  error w' = Some "Could not add build: permission denied".
Proof. vm_compute. done. Qed.

(** At capacity, a candidate that passes the Engine check is turned down
    with the capacity message, and nothing else is asked of the host. *)
Lemma addBuild_at_capacity (host : Host) (now : N) (rnd p ep : string)
    (w : World) :
  truthy p = true ->
  16 <= length (builds w) ->
  fs_join host [p; "Engine"] = Ok ep ->
  fs_exists host ep = Ok true ->
  addBuild host now rnd (Picked p) w
  = surface msg_full (emit (FsExists ep) (emit (FsJoin [p; "Engine"]) w)).
Proof.
  intros Hp Hlen Hjoin Hex. apply Nat.leb_le in Hlen.
  unfold_addBuild. by rewrite Hp, Hjoin, Hex, Hlen.
Qed.

(** C2, as the code has it: whenever the registry already holds 16
    entries, add leaves the registry (entries, selection and store)
    unchanged; the Engine check of the candidate comes first and the
    capacity second, so the validator is invoked, and a candidate that
    contains Engine is rejected with Full before the cover is probed. *)
Theorem C2_full_registry_rejects (host : Host) (now : N) (rnd p : string)
    (w : World) :
  truthy p = true ->
  length (builds w) = 16 ->
  let w' := addBuild host now rnd (Picked p) w in
  (builds w' = builds w /\ path w' = path w /\
   localStorage w' = localStorage w) /\
  (exists rest, log w' = log w ++ FsJoin [p; "Engine"] :: rest) /\
  (forall ep,
     fs_join host [p; "Engine"] = Ok ep ->
     fs_exists host ep = Ok true ->
     error w' = Some msg_full /\
     log w' = log w ++ [FsJoin [p; "Engine"]; FsExists ep;
                        SetTimeoutClearError 5000]).
Proof.
  intros Hp Hlen. split; [|split].
  - destruct (addBuild_cases host now rnd (Picked p) w)
      as [H | (q & cover & _ & Hlt & _)]; [exact H | lia].
  - unfold_addBuild. rewrite Hp, Hlen.
    destruct (fs_join host [p; "Engine"]) as [ep|e]; cbn;
      [|rewrite <- !app_assoc; by eexists].
    destruct (fs_exists host ep) as [[|]|e]; cbn;
      rewrite <- !app_assoc; by eexists.
  - intros ep Hjoin Hex.
    rewrite (addBuild_at_capacity host now rnd p ep w Hp) by (done || lia).
    cbn. by rewrite <- !app_assoc.
Qed.

Lemma C2_witness :
  length (builds Sample.w_full) = 16 /\
  let w' := addBuild Sample.host_plain 1760000000016 "k3j9zq"
              (Picked "/games/Foo") Sample.w_full in
  builds w' = builds Sample.w_full /\
  error w' = Some msg_full /\
  log w' = log Sample.w_full ++
             [FsJoin ["/games/Foo"; "Engine"]; FsExists Sample.engine_dir;
              SetTimeoutClearError 5000].
Proof.
  split; [reflexivity |].
  pose proof (C2_full_registry_rejects Sample.host_plain 1760000000016
                "k3j9zq" "/games/Foo" Sample.w_full eq_refl eq_refl)
    as ((Hb & _ & _) & _ & Hfull).
  destruct (Hfull Sample.engine_dir eq_refl eq_refl) as [He Hl].
  exact (conj Hb (conj He Hl)).
Defined.

(** C2 as stated fails: with 16 entries in the registry, add sends the
    Engine probe of the validator to the host before it answers Full. *)
Lemma C2_counterexample :
  length (builds Sample.w_full) = 16 /\
  let w' := addBuild Sample.host_plain 1760000000016 "k3j9zq"
              (Picked "/games/Foo") Sample.w_full in
  error w' = Some msg_full /\
  log w' <> log Sample.w_full /\
  FsExists "/games/Foo/Engine" ∈ drop (length (log Sample.w_full)) (log w').
Proof.
  split; [reflexivity |]. split; [reflexivity |]. split.
  - intros H. apply (f_equal length) in H. vm_compute in H. discriminate.
  - vm_compute. apply list_elem_of_further, list_elem_of_here.
Qed.

(** ** Removing a build *)

Lemma removeBuild_builds (id : string) (w : World) :
  builds (removeBuild id w)
  = List.filter (fun b => negb (has_id id b)) (builds w).
Proof.
  unfold removeBuild.
  destruct (removed_is_selected _ _); [|reflexivity].
  by destruct (List.filter _ _).
Qed.

Lemma removeBuild_length (id : string) (w : World) :
  length (builds (removeBuild id w)) <= length (builds w).
Proof. rewrite removeBuild_builds. apply List.filter_length_le. Qed.

(** ** The capacity of the registry *)

Lemma step_length (op : Op) (w : World) :
  length (builds w) <= 16 -> length (builds (step op w)) <= 16.
Proof.
  intros Hw. destruct op as [host now rnd selected | id]; cbn [step].
  - destruct (addBuild_cases host now rnd selected w)
      as [(-> & _) | (p & cover & _ & Hlt & -> & _)]; simpl; lia.
  - pose proof (removeBuild_length id w). lia.
Qed.

(** C5, as the code has it: for every sequence of add and remove
    operations starting from a registry of length at most 16, the length
    never exceeds 16; an add attempt on the registry of 16 such a
    sequence has built is always rejected and adds nothing, with Full
    when the candidate directory contains Engine (the Engine check comes
    before the capacity check). *)
Theorem C5_length_bounded (ops : list Op) (w : World) :
  length (builds w) <= 16 ->
  Forall (fun w' => length (builds w') <= 16) (trace ops w) /\
  (length (builds (run ops w)) = 16 ->
   forall host now rnd selected,
     let w' := addBuild host now rnd selected (run ops w) in
     builds w' = builds (run ops w) /\
     (forall p ep,
        selected = Picked p -> truthy p = true ->
        fs_join host [p; "Engine"] = Ok ep ->
        fs_exists host ep = Ok true ->
        error w' = Some msg_full)).
Proof.
  intros Hw. split.
  - revert w Hw. induction ops as [|op ops IH]; intros w Hw; cbn [trace].
    + by constructor.
    + constructor; [exact Hw |]. apply IH. by apply step_length.
  - intros Hlen host now rnd selected. split.
    + destruct (addBuild_cases host now rnd selected (run ops w))
        as [(H & _) | (q & cover & _ & Hlt & _)]; [exact H | lia].
    + intros p ep -> Hp Hjoin Hex.
      rewrite (addBuild_at_capacity host now rnd p ep _ Hp) by (done || lia).
      reflexivity.
Qed.

Lemma C5_witness :
  Forall (fun w' => length (builds w') <= 16)
    (trace Sample.sixteen_adds Sample.w_empty) /\
  length (builds Sample.w_full) = 16 /\
  let w' := addBuild Sample.host_plain 1760000000016 "k3j9zq"
              (Picked "/games/Foo") Sample.w_full in
  builds w' = builds Sample.w_full /\ error w' = Some msg_full.
Proof.
  assert (Hw : length (builds Sample.w_empty) <= 16) by (simpl; lia).
  destruct (C5_length_bounded Sample.sixteen_adds Sample.w_empty Hw)
    as [Hall Hfull].
  split; [exact Hall |]. split; [reflexivity |].
  destruct (Hfull eq_refl Sample.host_plain 1760000000016%N "k3j9zq"
              (Picked "/games/Foo")) as [Hb He].
  split; [exact Hb |].
  exact (He "/games/Foo" Sample.engine_dir eq_refl eq_refl eq_refl eq_refl).
Defined.

(** C5 as stated fails in its last part: after sixteen adds, a 17th add
    attempt of a folder without Engine is rejected with the invalid-build
    error, not with Full. *)
Lemma C5_counterexample :
  length (builds (run Sample.sixteen_adds Sample.w_empty)) = 16 /\
  fs_exists Sample.host_plain "/games/Bar/Engine" = Ok false /\
  let w' := addBuild Sample.host_plain 1760000000016 "k3j9zq"
              (Picked "/games/Bar")
              (run Sample.sixteen_adds Sample.w_empty) in
  error w' = Some msg_invalid_build /\ error w' <> Some msg_full.
Proof.
  split; [reflexivity |]. split; [reflexivity |].
  split; [reflexivity |]. vm_compute. discriminate.
Qed.

(** C6: for every registry state, remove(id) of the entry whose path
    equals the selected path sets the selected path to the path of the
    new first entry, or clears it when the registry becomes empty;
    remove(id) of an entry whose path is not the selected one leaves the
    selected path unchanged; remove of an absent id changes nothing in
    memory, raises no error and rewrites the store with the same list
    (so it is the identity on a store that is in step with the
    registry). *)
Theorem C6_remove_and_selection (id : string) (w : World) :
  let w' := removeBuild id w in
  (forall r,
     List.find (has_id id) (builds w) = Some r ->
     path w = Some (BuildItem.path r) ->
     path w' = BuildItem.path <$> head (builds w')) /\
  (forall r,
     List.find (has_id id) (builds w) = Some r ->
     path w <> Some (BuildItem.path r) ->
     path w' = path w) /\
  (List.find (has_id id) (builds w) = None ->
   builds w' = builds w /\ path w' = path w /\ error w' = error w /\
   localStorage w'
   = <["PabloMP.builds" := JSON.stringify (builds w)]> (localStorage w) /\
   (localStorage w !! "PabloMP.builds" = Some (JSON.stringify (builds w)) ->
    w' = w)).
Proof.
  cbn zeta. split; [|split].
  - intros r Hfind Hpath. unfold removeBuild.
    rewrite Hfind, Hpath. cbn [removed_is_selected].
    rewrite String.eqb_refl.
    by destruct (List.filter _ _).
  - intros r Hfind Hpath. unfold removeBuild. rewrite Hfind.
    destruct (path w) as [p|] eqn:Hp; cbn [removed_is_selected].
    + destruct (String.eqb_spec (BuildItem.path r) p) as [Heq|Hne];
        [by rewrite Heq in Hpath | exact Hp].
    + exact Hp.
  - intros Hfind.
    assert (Hfil : List.filter (fun b => negb (has_id id b)) (builds w)
                   = builds w).
    { apply List.forallb_filter_id. apply forallb_forall. intros b Hb.
      by rewrite (List.find_none _ _ Hfind b Hb). }
    unfold removeBuild. rewrite Hfind, Hfil. cbn [removed_is_selected].
    repeat split; try reflexivity.
    intros Hsync. destruct w as [p l u e b er st lg].
    unfold setBuilds, localStorage_setItem, withStorage.
    cbn [path isLaunching user EOR builds error localStorage log] in *.
    by rewrite insert_id.
Qed.

Lemma C6_witness :
  (let w' := removeBuild "1-aaaaaa" Sample.w_two in
   builds w' = [Sample.bar] /\ path w' = Some "/games/Bar") /\
  (let w' := removeBuild "2-bbbbbb" Sample.w_two in
   builds w' = [Sample.foo] /\ path w' = Some "/games/Foo") /\
  removeBuild "3-cccccc" Sample.w_two = Sample.w_two.
Proof.
  destruct (C6_remove_and_selection "1-aaaaaa" Sample.w_two)
    as (Hsel & _ & _).
  destruct (C6_remove_and_selection "2-bbbbbb" Sample.w_two)
    as (_ & Hother & _).
  destruct (C6_remove_and_selection "3-cccccc" Sample.w_two)
    as (_ & _ & Habsent).
  split; [|split].
  - split; [reflexivity |].
    exact (Hsel Sample.foo eq_refl eq_refl).
  - split; [reflexivity |].
    apply (Hother Sample.bar eq_refl). discriminate.
  - destruct (Habsent eq_refl) as (_ & _ & _ & _ & Hid).
    apply Hid. reflexivity.
Defined.

(** With unique ids, the entry that [removeBuild] looks up is the one
    entry of that id. *)
Lemma find_unique_id (bs : list BuildItem.t) (b : BuildItem.t) :
  NoDup (BuildItem.id <$> bs) -> b ∈ bs ->
  List.find (has_id (BuildItem.id b)) bs = Some b.
Proof.
  induction bs as [|x bs IH]; intros Hnd Hin; [by apply elem_of_nil in Hin |].
  cbn [fmap list_fmap] in Hnd. apply NoDup_cons in Hnd as [Hx Hnd].
  cbn [List.find]. unfold has_id at 1.
  apply elem_of_cons in Hin as [-> | Hin].
  - by rewrite String.eqb_refl.
  - destruct (String.eqb_spec (BuildItem.id x) (BuildItem.id b)) as [Heq|_].
    + exfalso. apply Hx. rewrite Heq. by apply list_elem_of_fmap_2.
    + by apply IH.
Qed.

(** ** Logging out *)

(** C4: after logout the persistent store holds nothing at all, so no
    session credentials, no toggle, no selected path and no build
    registry; the session, the selected path and the registry are
    cleared in memory too.  Should the component be rendered once more
    before the route change takes it away, its persistence effects write
    back only the empty registry: still no credentials, no toggle and no
    selected path. *)
Theorem C4_logout_total_reset (w : World) :
  let w' := handleLogout w in
  localStorage w' = ∅ /\
  user w' = None /\ path w' = None /\ builds w' = [] /\
  localStorage (persist_effects w') = {[ "PabloMP.builds" := "[]" ]}.
Proof.
  cbn zeta. repeat split; reflexivity.
Qed.

(** ** Launching *)

(** C3: in launch() the two preconditions, a resolvable build path (the
    selected path or, failing that, the path of the first entry) and a
    session, are settled before the state leaves Idle.  The handler asks
    for Launching and, where a precondition fails, takes the request back
    in the same synchronous run, so that no render ever shows Launching:
    for every call from Idle where either precondition fails, the
    corresponding error is surfaced (no build before no session), the
    rendered states are Idle, Idle, no command is sent to the host and
    the polling loop sends no query. *)
Theorem C3_failed_precondition_ends_idle (w : World) :
  resolved w = false \/ user w = None ->
  let w' := (handleLaunch_begin w).1 in
  (handleLaunch_begin w).2 = false /\
  isLaunching w' = false /\
  error w' = Some (if resolved w then msg_no_login else msg_no_build) /\
  log w' = log w ++ [SetIsLaunching true; SetTimeoutClearError 5000;
                     SetIsLaunching false] /\
  (forall replies, polling_effect replies w' = [w']) /\
  (isLaunching w = false ->
   forall launch_reply replies,
     launch_cycle launch_reply replies w = [w; w'] /\
     isLaunching <$> launch_cycle launch_reply replies w = [false; false]).
Proof.
  intros Hpre.
  assert (Hbegin :
    (handleLaunch_begin w).2 = false /\
    isLaunching (handleLaunch_begin w).1 = false /\
    error (handleLaunch_begin w).1
    = Some (if resolved w then msg_no_login else msg_no_build) /\
    log (handleLaunch_begin w).1
    = log w ++ [SetIsLaunching true; SetTimeoutClearError 5000;
                SetIsLaunching false] /\
    (forall replies,
       polling_effect replies (handleLaunch_begin w).1
       = [(handleLaunch_begin w).1])).
  { unfold resolved in *. unfold handleLaunch_begin.
    destruct (launchPath w) as [lp|]; [destruct (truthy lp) eqn:Hlp |].
    - destruct Hpre as [? | ->]; [done |]. cbn.
      rewrite <- !app_assoc. done.
    - cbn. rewrite <- !app_assoc. done.
    - cbn. rewrite <- !app_assoc. done. }
  destruct Hbegin as (Hawait & Hidle' & Herr & Hlog & Hpoll).
  cbn zeta. repeat (split; [done |]).
  intros Hidle launch_reply replies. unfold launch_cycle.
  destruct (handleLaunch_begin w) as [w1 awaiting]. cbn [fst snd] in *.
  rewrite Hawait. cbn [negb orb fmap list_fmap].
  by rewrite Hidle, Hidle'.
Qed.

Lemma C3_witness :
  (let w' := (handleLaunch_begin Sample.w_empty).1 in
   error w' = Some msg_no_build /\
   isLaunching <$> launch_cycle (Ok tt) [Ok (JsBool true)] Sample.w_empty
   = [false; false]) /\
  (let w' := (handleLaunch_begin (setUser None Sample.w_ready)).1 in
   error w' = Some msg_no_login /\
   isLaunching <$>
     launch_cycle (Ok tt) [Ok (JsBool true)] (setUser None Sample.w_ready)
   = [false; false]).
Proof.
  split.
  - destruct (C3_failed_precondition_ends_idle Sample.w_empty
                (or_introl eq_refl)) as (_ & _ & Herr & _ & _ & Hcycle).
    split; [exact Herr |].
    exact (proj2 (Hcycle eq_refl (Ok tt) [Ok (JsBool true)])).
  - destruct (C3_failed_precondition_ends_idle (setUser None Sample.w_ready)
                (or_intror eq_refl)) as (_ & _ & Herr & _ & _ & Hcycle).
    split; [exact Herr |].
    exact (proj2 (Hcycle eq_refl (Ok tt) [Ok (JsBool true)])).
Defined.

(** ** Polling *)

Lemma run_settle_still_running (reply : Result JsValue) (w : World) :
  still_running reply = true -> run_settle false reply w = w.
Proof. destruct reply as [[[|]|]|e]; cbn; intros H; done. Qed.

Lemma run_settle_not_running (reply : Result JsValue) (w : World) :
  still_running reply = false ->
  run_settle false reply w = setIsLaunching false w.
Proof. destruct reply as [[[|]|]|e]; cbn; intros H; done. Qed.

Lemma count_queries_snoc (l : list Event) (e : Event) :
  count_queries (l ++ [e])
  = count_queries l + (if is_query e then 1 else 0).
Proof.
  unfold count_queries. rewrite List.filter_app, length_app. cbn.
  by destruct (is_query e).
Qed.

Ltac count_log :=
  cbn [log setIsLaunching emit run_issue polling_cleanup];
  rewrite !count_queries_snoc; cbn [is_query length]; lia.

(** While the replies read as still running the loop goes on, one query
    per firing; the first reply that fails or is [false] ends it. *)
Lemma interval_ticks_until_not_running
    (goods : list (Result JsValue)) (bad : Result JsValue)
    (rest : list (Result JsValue)) (w : World) :
  isLaunching w = true ->
  forallb still_running goods = true ->
  still_running bad = false ->
  exists w',
    last (interval_ticks (goods ++ bad :: rest) w) = Some w' /\
    isLaunching w' = false /\
    count_queries (log w') = count_queries (log w) + length goods + 1.
Proof.
  revert w. induction goods as [|r goods IH]; intros w Hw Hgoods Hbad.
  - cbn [app interval_ticks]. rewrite (run_settle_not_running _ _ Hbad).
    cbn [isLaunching setIsLaunching emit].
    eexists. split; [reflexivity |]. split; [reflexivity |].
    count_log.
  - cbn [forallb] in Hgoods. apply andb_prop in Hgoods as [Hr Hgoods].
    cbn [app interval_ticks]. rewrite (run_settle_still_running _ _ Hr).
    cbn [isLaunching run_issue emit]. rewrite Hw.
    destruct (IH (run_issue (emit IntervalFired w)) Hw Hgoods Hbad)
      as (w' & Hlast & Hidle & Hcount).
    exists w'. split; [|split; [exact Hidle |]].
    + rewrite last_cons. unfold run_issue, emit in Hlast |- *.
      cbn [path isLaunching user EOR builds error localStorage log] in *.
      by rewrite Hlast.
    + rewrite Hcount. count_log.
Qed.

(** C7: once the state is Launching, the polling effect sends the first
    liveness query at once, before its timer is even set; a query that
    fails or reports not-running returns the state to Idle, whichever
    query of the loop it is; and with a launch that succeeds, a first
    reply of [true] and a second of [false], the states are Idle,
    Launching, Launching, Idle and exactly two liveness queries are
    sent. *)
Theorem C7_polling_loop :
  (forall replies w,
     isLaunching w = true ->
     exists rest,
       polling_effect replies w
       = emit (SetInterval 3000) (emit InvokeIsRunning w) :: rest) /\
  (forall reply w,
     still_running reply = false ->
     isLaunching (run_settle false reply w) = false) /\
  (forall goods bad rest w,
     isLaunching w = true ->
     forallb still_running goods = true ->
     still_running bad = false ->
     exists w',
       last (polling_effect (goods ++ bad :: rest) w) = Some w' /\
       isLaunching w' = false /\
       count_queries (log w') = count_queries (log w) + length goods + 1) /\
  (forall w0 lp u,
     isLaunching w0 = false ->
     launchPath w0 = Some lp -> truthy lp = true -> user w0 = Some u ->
     let cycle :=
       launch_cycle (Ok tt) [Ok (JsBool true); Ok (JsBool false)] w0 in
     isLaunching <$> cycle = [false; true; true; false] /\
     exists w',
       last cycle = Some w' /\
       log w' = log w0 ++
                  [SetIsLaunching true;
                   InvokeFirstLaunch lp (email u) (password u) (EOR w0);
                   InvokeIsRunning; SetInterval 3000;
                   IntervalFired; InvokeIsRunning;
                   SetIsLaunching false; ClearInterval] /\
       count_queries (log w') = count_queries (log w0) + 2).
Proof.
  split; [|split; [|split]].
  - intros replies w Hw. unfold polling_effect. rewrite Hw.
    by eexists.
  - intros reply w Hbad. by rewrite (run_settle_not_running _ _ Hbad).
  - intros goods bad rest w Hw Hgoods Hbad.
    unfold polling_effect. rewrite Hw.
    destruct goods as [|r goods].
    + cbn [app]. rewrite (run_settle_not_running _ _ Hbad).
      cbn [isLaunching setIsLaunching emit].
      eexists. split; [reflexivity |]. split; [reflexivity |].
      count_log.
    + cbn [forallb] in Hgoods. apply andb_prop in Hgoods as [Hr Hgoods].
      cbn [app]. rewrite (run_settle_still_running _ _ Hr).
      cbn [isLaunching run_issue emit]. rewrite Hw.
      destruct (interval_ticks_until_not_running goods bad rest
                  (emit (SetInterval 3000) (run_issue w)) Hw Hgoods Hbad)
        as (w' & Hlast & Hidle & Hcount).
      exists w'. split; [|split; [exact Hidle |]].
      * rewrite !last_cons. unfold run_issue, emit in Hlast |- *.
        cbn [path isLaunching user EOR builds error localStorage log] in *.
        by rewrite Hlast.
      * rewrite Hcount. count_log.
  - intros w0 lp u Hidle Hlp Htruthy Hu.
    unfold launch_cycle, handleLaunch_begin. rewrite Hlp, Htruthy, Hu, Hidle.
    cbn. rewrite Hidle. split; [reflexivity |].
    eexists. split; [reflexivity |]. split; [|count_log].
    cbn [log polling_cleanup setIsLaunching run_issue emit].
    by rewrite <- !app_assoc.
Qed.

Lemma C7_witness :
  let cycle :=
    launch_cycle (Ok tt) [Ok (JsBool true); Ok (JsBool false)]
      Sample.w_ready in
  isLaunching <$> cycle = [false; true; true; false] /\
  exists w',
    last cycle = Some w' /\
    count_queries (log w') = count_queries (log Sample.w_ready) + 2.
Proof.
  destruct C7_polling_loop as (_ & _ & _ & Hscenario).
  destruct (Hscenario Sample.w_ready "/games/Foo" Sample.alice
              eq_refl eq_refl eq_refl eq_refl)
    as (Hstates & w' & Hlast & _ & Hcount).
  split; [exact Hstates |].
  exists w'. exact (conj Hlast Hcount).
Defined.

(** ** The display name of a new build *)

(** The entry an accepted add puts in front. *)
Lemma addBuild_new_entry (host : Host) (now : N) (rnd p : string)
    (read : option (list byte)) (w : World) :
  truthy p = true -> length (builds w) < 16 -> accepted host p read ->
  builds (addBuild host now rnd (Picked p) w)
  = BuildItem.mk (new_id now rnd) p (getFolderName p) (cover_of read)
      :: builds w.
Proof.
  intros Hp Hlen (ep & sp & Hjoin & Hex & Hsplash & Hread).
  apply Nat.leb_gt in Hlen.
  unfold_addBuild. rewrite Hp, Hjoin, Hex. cbn [negb].
  rewrite Hlen, Hsplash.
  destruct read as [bytes|].
  - destruct Hread as [-> ->]. reflexivity.
  - rewrite Hread. reflexivity.
Qed.

(** C10: the name of a new build entry is [getFolderName] of the chosen
    directory path: every add that goes through (a picked folder with
    Engine, a registry with room, a splash image absent or read) puts in
    front an entry of that path whose name is the folder name, and no
    entry is ever added under another name.  The folder name is the last
    non-empty segment of the path split at slashes and backslashes; for
    every path with no such segment (the empty path, or separators only)
    it is the path itself. *)
Theorem C10_display_name :
  (forall host now rnd p read w,
     truthy p = true -> length (builds w) < 16 -> accepted host p read ->
     exists item,
       builds (addBuild host now rnd (Picked p) w) = item :: builds w /\
       BuildItem.path item = p /\
       BuildItem.name item = getFolderName p) /\
  (forall host now rnd p w item,
     builds (addBuild host now rnd (Picked p) w) = item :: builds w ->
     BuildItem.name item = getFolderName p) /\
  (forall pre seg suf,
     segment_start pre ->
     seg <> EmptyString -> no_sep seg = true -> only_seps suf = true ->
     getFolderName (pre +:+ seg +:+ suf) = seg) /\
  (forall p, only_seps p = true -> getFolderName p = p).
Proof.
  split; [|split; [|split]].
  - intros host now rnd p read w Hp Hlen Hacc.
    eexists. split; [by apply (addBuild_new_entry host now rnd p read) |].
    by split.
  - intros host now rnd p w item Hadd.
    destruct (addBuild_cases host now rnd (Picked p) w)
      as [(Hsame & _) | (q & cover & Hq & _ & Hnew & _)].
    + rewrite Hsame in Hadd. symmetry in Hadd.
      by apply cons_neq_self in Hadd.
    + injection Hq as <-. rewrite Hnew in Hadd.
      apply (f_equal head) in Hadd. cbn [head] in Hadd.
      by injection Hadd as <-.
  - exact getFolderName_last_segment.
  - exact getFolderName_only_seps.
Qed.

Lemma C10_witness :
  (exists item,
     builds (addBuild Sample.host_plain 1760000000000 "k3j9zq"
               (Picked "/games/Foo") Sample.w_empty) = [item] /\
     BuildItem.path item = "/games/Foo" /\
     BuildItem.name item = "Foo") /\
  getFolderName "C:\games\Foo\" = "Foo" /\
  getFolderName "//\" = "//\".
Proof.
  destruct C10_display_name as (Hadd & _ & Hseg & Hseps).
  split; [|split].
  - apply (Hadd Sample.host_plain 1760000000000%N "k3j9zq" "/games/Foo" None
             Sample.w_empty); [reflexivity | simpl; lia |].
    exists Sample.engine_dir, Sample.splash_file. by repeat split.
  - apply (Hseg "C:\games\" "Foo" "\"); try done.
    right. by exists "C:\games", "\"%char.
  - by apply Hseps.
Defined.

(** ** Runs on concrete inputs *)

Example btoa_Man : btoa "Man" = "TWFu" /\ btoa "Ma" = "TWE=" /\ btoa "M" = "TQ==".
Proof. repeat split. Qed.

Example bytesToBase64_BM : bytesToBase64 [x42; x4d]%byte = "Qk0=".
Proof. reflexivity. Qed.

Example getFolderName_runs :
  getFolderName "/games/Foo" = "Foo" /\
  getFolderName "C:\games\Foo\" = "Foo" /\
  getFolderName "Foo" = "Foo" /\
  getFolderName "/" = "/" /\
  getFolderName EmptyString = EmptyString.
Proof. repeat split. Qed.

(** An empty registry and a folder with Engine and no splash image: one
    entry named after the folder, no cover, the folder selected. *)
Example addBuild_first_build :
  let w' := addBuild Sample.host_plain 1760000000000 "k3j9zq"
              (Picked "/games/Foo") Sample.w_empty in
  builds w' = [BuildItem.mk "1760000000000-k3j9zq" "/games/Foo" "Foo" None] /\
  path w' = Some "/games/Foo" /\ error w' = None.
Proof. repeat split. Qed.

(** A cancelled dialog changes nothing. *)
Example addBuild_cancelled (host : Host) (now : N) (rnd : string) (w : World) :
  addBuild host now rnd Cancelled w = w.
Proof. reflexivity. Qed.

(** A launch command the host rejects while the first liveness query is
    in flight, and one it rejects after that query has answered that
    nothing runs. *)
Example launch_rejected :
  isLaunching <$> launch_cycle (Err "spawn failed") [] Sample.w_ready
  = [false; true; false] /\
  isLaunching <$>
    launch_cycle (Err "spawn failed") [Ok (JsBool false)] Sample.w_ready
  = [false; true; false; false] /\
  error <$> last (launch_cycle (Err "spawn failed") [Ok (JsBool false)]
                    Sample.w_ready)
  = Some (Some "Fehler beim Start: spawn failed").
Proof. repeat split. Qed.

(** Logging out of a session with two builds and a stored toggle. *)
Example logout_clears_store :
  localStorage (handleLogout (handleToggleEOR true Sample.w_two)) = ∅.
Proof. reflexivity. Qed.

(** * Further properties *)

(** ** The build on display and the build that is launched *)

Lemma find_is_path_Some (path : option string) (bs : list BuildItem.t)
    (b : BuildItem.t) :
  List.find (is_path path) bs = Some b ->
  b ∈ bs /\ path = Some (BuildItem.path b).
Proof.
  intros Hfind. apply List.find_some in Hfind as [Hin Hb].
  split; [by apply list_elem_of_In |].
  destruct path as [p|]; cbn in Hb; [|done].
  by apply String.eqb_eq in Hb as ->.
Qed.

Lemma find_is_path_exists (p : string) (bs : list BuildItem.t) :
  p ∈ (BuildItem.path <$> bs) ->
  exists b, List.find (is_path (Some p)) bs = Some b.
Proof.
  intros Hin. apply list_elem_of_fmap in Hin as (b & -> & Hb).
  destruct (List.find (is_path (Some (BuildItem.path b))) bs) as [c|] eqn:Hf;
    [by exists c |].
  apply list_elem_of_In in Hb.
  pose proof (List.find_none _ _ Hf b Hb) as Hno. cbn in Hno.
  by rewrite String.eqb_refl in Hno.
Qed.

Lemma current_of_selected (w : World) (p : string) :
  path w = Some p -> p ∈ (BuildItem.path <$> builds w) ->
  BuildItem.path <$> current w = Some p.
Proof.
  intros Hp Hin. unfold current. rewrite Hp.
  destruct (find_is_path_exists p _ Hin) as [b Hb]. rewrite Hb.
  apply find_is_path_Some in Hb as [_ [= ->]]. reflexivity.
Qed.

(** X1: the banner always shows an entry of the registry, and shows none
    only when the registry is empty; when the selected path is the path
    of an entry, the entry on display has that path. *)
Theorem current_is_an_entry (w : World) :
  (current w = None <-> builds w = []) /\
  (forall b, current w = Some b -> b ∈ builds w) /\
  (forall p, path w = Some p -> p ∈ (BuildItem.path <$> builds w) ->
             BuildItem.path <$> current w = Some p).
Proof.
  unfold current. split; [|split].
  - destruct (List.find _ _) as [b|] eqn:Hf.
    + apply find_is_path_Some in Hf as [Hin _].
      split; [done |]. intros Hnil. rewrite Hnil in Hin.
      by apply elem_of_nil in Hin.
    + by destruct (builds w).
  - intros b. destruct (List.find _ _) as [c|] eqn:Hf.
    + apply find_is_path_Some in Hf as [Hin _]. by intros [= <-].
    + destruct (builds w) as [|c bs]; [done |].
      intros [= <-]. apply list_elem_of_here.
  - intros p Hp Hin. fold (current w). by apply current_of_selected.
Qed.

Lemma current_is_an_entry_witness :
  current Sample.w_empty = None /\
  BuildItem.path <$> current Sample.w_two = Some "/games/Foo".
Proof.
  destruct (current_is_an_entry Sample.w_empty) as ((_ & Hnone) & _ & _).
  destruct (current_is_an_entry Sample.w_two) as (_ & _ & Hsel).
  split; [by apply Hnone |].
  apply Hsel; [reflexivity |]. apply list_elem_of_here.
Defined.

(** X2: with no selected path, or with a selected path that is non-empty and
    the path of an entry, a launch uses the path of the build on
    display.  With a non-empty selected path that no entry has, a launch
    still uses that path, while the banner shows the first entry. *)
Theorem launch_path_and_display (w : World) :
  (path w = None \/
   (exists p, path w = Some p /\ truthy p = true /\
              p ∈ (BuildItem.path <$> builds w)) ->
   launchPath w = BuildItem.path <$> current w) /\
  (forall p, path w = Some p -> truthy p = true ->
             p ∉ (BuildItem.path <$> builds w) ->
             launchPath w = Some p /\ current w = head (builds w)).
Proof.
  split.
  - intros [Hnone | (p & Hp & Htruthy & Hin)].
    + unfold launchPath, current. rewrite Hnone. cbn.
      replace (List.find (is_path None) (builds w)) with (@None BuildItem.t);
        [reflexivity |].
      symmetry. induction (builds w) as [|b bs IH]; [reflexivity | exact IH].
    + rewrite (current_of_selected w p Hp Hin).
      unfold launchPath. by rewrite Hp, Htruthy.
  - intros p Hp Htruthy Hnot. unfold launchPath, current.
    rewrite Hp, Htruthy. split; [reflexivity |].
    destruct (List.find _ _) as [b|] eqn:Hf; [|reflexivity].
    apply find_is_path_Some in Hf as [Hin [= ->]].
    exfalso. apply Hnot. by apply list_elem_of_fmap_2.
Qed.

Lemma launch_path_and_display_witness :
  launchPath Sample.w_two = BuildItem.path <$> current Sample.w_two /\
  (let w := setPath (Some "/games/Gone") Sample.w_two in
   launchPath w = Some "/games/Gone" /\ current w = Some Sample.foo).
Proof.
  destruct (launch_path_and_display Sample.w_two) as [Hvalid _].
  destruct (launch_path_and_display
              (setPath (Some "/games/Gone") Sample.w_two)) as [_ Hdangling].
  split.
  - apply Hvalid. right. exists "/games/Foo".
    split; [reflexivity |]. split; [reflexivity |]. apply list_elem_of_here.
  - apply (Hdangling "/games/Gone"); [reflexivity | reflexivity |].
    intros Hin. cbn in Hin. apply elem_of_cons in Hin as [Heq | Hin];
      [discriminate |].
    apply elem_of_cons in Hin as [Heq | Hin]; [discriminate |].
    by apply elem_of_nil in Hin.
Defined.

(** X3: the Play button of a card sends the launch command for the path of
    the render it was clicked in: with a non-empty selected path it is
    that path, whatever card was clicked; the clicked card only becomes
    the selection of the next render. *)
Theorem play_launches_previous_selection (i : nat) (b : BuildItem.t)
    (p : string) (u : User) (w : World) :
  builds w !! i = Some b ->
  path w = Some p -> truthy p = true ->
  user w = Some u ->
  let w' := (playBuild i w).1 in
  log w' = log w ++ [SetIsLaunching true;
                     InvokeFirstLaunch p (email u) (password u) (EOR w)] /\
  path w' = Some (BuildItem.path b) /\
  isLaunching w' = true /\
  (playBuild i w).2 = true.
Proof.
  intros Hb Hp Htruthy Hu. unfold playBuild, handleLaunch_begin, launchPath.
  rewrite Hb, Hp, Hu. cbn. rewrite Htruthy. cbn. rewrite Htruthy.
  cbn [fst snd path isLaunching log setPath emit setIsLaunching].
  by rewrite <- !app_assoc.
Qed.

Lemma play_launches_previous_selection_witness :
  let w' := (playBuild 1 Sample.w_two).1 in
  log w' = [SetIsLaunching true;
            InvokeFirstLaunch "/games/Foo" "alice@example.org" "hunter22"
              false] /\
  path w' = Some "/games/Bar".
Proof.
  destruct (play_launches_previous_selection 1 Sample.bar "/games/Foo"
              Sample.alice Sample.w_two eq_refl eq_refl eq_refl eq_refl)
    as (Hlog & Hpath & _).
  exact (conj Hlog Hpath).
Defined.

(** ** When a build is added *)

(** X4: a picked folder is added exactly when the registry has room and the
    file system accepts it; the entry then stands first, carries the
    folder name and the cover that was read, and becomes the selection.
    In every other case of a picked folder an error is surfaced: add
    never fails silently and never adds without Engine. *)
Theorem addBuild_accepts_exactly (host : Host) (now : N) (rnd p : string)
    (w : World) :
  truthy p = true ->
  let w' := addBuild host now rnd (Picked p) w in
  ((exists read, length (builds w) < 16 /\ accepted host p read) <->
   length (builds w') = S (length (builds w))) /\
  (forall read,
     length (builds w) < 16 -> accepted host p read ->
     builds w' = BuildItem.mk (new_id now rnd) p (getFolderName p)
                   (cover_of read) :: builds w /\
     path w' = Some p /\ error w' = error w) /\
  (length (builds w') <> S (length (builds w)) ->
   builds w' = builds w /\ path w' = path w /\
   exists msg, error w' = Some msg /\
     (msg = msg_invalid_build \/ msg = msg_full \/
      exists e, msg = msg_could_not_add +:+ e)).
Proof.
  intros Hp. cbn zeta. unfold accepted, new_id, cover_of. unfold_addBuild.
  rewrite Hp.
  destruct (fs_join host [p; "Engine"]) as [ep|e] eqn:Hjoin.
  2:{ split; [|split].
      - split; [intros (r & _ & ep & sp & [=] & _) | (cbn; lia)].
      - intros r _ (ep & sp & [=] & _).
      - intros _. cbn. repeat split. eexists. split; [reflexivity |]. eauto. }
  destruct (fs_exists host ep) as [[|]|e] eqn:Hex; cbn [negb].
  2:{ split; [|split].
      - split; [intros (r & _ & ep' & sp & [= <-] & Hex' & _) | (cbn; lia)].
        congruence.
      - intros r _ (ep' & sp & [= <-] & Hex' & _). congruence.
      - intros _. cbn. repeat split. eexists. split; [reflexivity |]. eauto. }
  2:{ split; [|split].
      - split; [intros (r & _ & ep' & sp & [= <-] & Hex' & _) | (cbn; lia)].
        congruence.
      - intros r _ (ep' & sp & [= <-] & Hex' & _). congruence.
      - intros _. cbn. repeat split. eexists. split; [reflexivity |]. eauto. }
  destruct (16 <=? length (builds w)) eqn:Hlen.
  { apply Nat.leb_le in Hlen. split; [|split].
    - split; [intros (r & Hlt & _); lia | (cbn; lia)].
    - intros r Hlt. lia.
    - intros _. cbn. repeat split. eexists. split; [reflexivity |]. eauto. }
  apply Nat.leb_gt in Hlen.
  destruct (fs_join host [p; "FortniteGame"; _; _; _]) as [sp|e] eqn:Hsj.
  2:{ split; [|split].
      - split; [intros (r & _ & ep' & sp & _ & _ & [=] & _) | (cbn; lia)].
      - intros r _ (ep' & sp & _ & _ & [=] & _).
      - intros _. cbn. repeat split. eexists. split; [reflexivity |]. eauto. }
  destruct (fs_exists host sp) as [[|]|e] eqn:Hsx.
  3:{ split; [|split].
      - split; [intros (r & _ & ep' & sp' & _ & _ & [= <-] & Hr) | (cbn; lia)].
        destruct r as [bytes|]; [destruct Hr|]; congruence.
      - intros r _ (ep' & sp' & _ & _ & [= <-] & Hr).
        destruct r as [bytes|]; [destruct Hr|]; congruence.
      - intros _. cbn. repeat split. eexists. split; [reflexivity |]. eauto. }
  - destruct (fs_readBinaryFile host sp) as [bytes|e] eqn:Hrd.
    + split; [|split].
      * split; [by cbn |]. intros _. exists (Some bytes).
        split; [done |]. by exists ep, sp.
      * intros r _ (ep' & sp' & _ & _ & [= <-] & Hr).
        destruct r as [bytes'|]; [|congruence].
        destruct Hr as [_ Hr]. rewrite Hrd in Hr. by injection Hr as <-.
      * cbn. intros Hne. by exfalso.
    + split; [|split].
      * split; [intros (r & _ & ep' & sp' & _ & _ & [= <-] & Hr) | (cbn; lia)].
        destruct r as [bytes|]; [destruct Hr|]; congruence.
      * intros r _ (ep' & sp' & _ & _ & [= <-] & Hr).
        destruct r as [bytes|]; [destruct Hr|]; congruence.
      * intros _. cbn. repeat split. eexists. split; [reflexivity |]. eauto.
  - split; [|split].
    + split; [by cbn |]. intros _. exists None.
      split; [done |]. by exists ep, sp.
    + intros r _ (ep' & sp' & _ & _ & [= <-] & Hr).
      destruct r as [bytes'|]; [destruct Hr; congruence | done].
    + cbn. intros Hne. by exfalso.
Qed.

Lemma addBuild_accepts_exactly_witness :
  (let w' := addBuild Sample.host_cover 1760000000000 "k3j9zq"
               (Picked "/games/Foo") Sample.w_empty in
   builds w' = [BuildItem.mk "1760000000000-k3j9zq" "/games/Foo" "Foo"
                  (Some "data:image/bmp;base64,Qk0=")] /\
   path w' = Some "/games/Foo" /\ error w' = None) /\
  (let w' := addBuild Sample.host_plain 1760000000000 "k3j9zq"
               (Picked "/games/Bar") Sample.w_two in
   builds w' = builds Sample.w_two /\ path w' = path Sample.w_two /\
   exists msg, error w' = Some msg).
Proof.
  split.
  - destruct (addBuild_accepts_exactly Sample.host_cover 1760000000000
                "k3j9zq" "/games/Foo" Sample.w_empty eq_refl)
      as (_ & Hadd & _).
    apply (Hadd (Some [x42; x4d]%byte)); [simpl; lia |].
    exists Sample.engine_dir, Sample.splash_file. by repeat split.
  - destruct (addBuild_accepts_exactly Sample.host_plain 1760000000000
                "k3j9zq" "/games/Bar" Sample.w_two eq_refl)
      as (_ & _ & Hrej).
    destruct Hrej as (Hb & Hp & msg & Hmsg & _); [by vm_compute |].
    split; [exact Hb |]. split; [exact Hp |]. by exists msg.
Defined.

(** ** The invariants of the registry *)

Lemma NoDup_ids_filter (f : BuildItem.t -> bool) (bs : list BuildItem.t) :
  NoDup (BuildItem.id <$> bs) -> NoDup (BuildItem.id <$> List.filter f bs).
Proof.
  induction bs as [|b bs IH]; intros Hnd; [done |].
  cbn [fmap list_fmap] in Hnd. apply NoDup_cons in Hnd as [Hb Hnd].
  cbn [List.filter]. destruct (f b); [|by apply IH].
  cbn [fmap list_fmap]. apply NoDup_cons. split; [|by apply IH].
  intros Hin. apply Hb.
  apply list_elem_of_fmap in Hin as (c & Hc & Hin).
  apply list_elem_of_In, List.filter_In in Hin as [Hin _].
  rewrite Hc. apply list_elem_of_fmap_2. by apply list_elem_of_In.
Qed.

Lemma elem_of_filter_bool (f : BuildItem.t -> bool) (bs : list BuildItem.t)
    (b : BuildItem.t) :
  b ∈ List.filter f bs <-> b ∈ bs /\ f b = true.
Proof. rewrite !list_elem_of_In. apply List.filter_In. Qed.

(** Removing keeps a valid selection valid when no id stands twice. *)
Lemma removeBuild_selection_valid (id : string) (w : World) :
  NoDup (ids w) -> selection_valid w -> selection_valid (removeBuild id w).
Proof.
  intros Hnd Hsel. unfold selection_valid in *.
  pose proof (removeBuild_builds id w) as Hnext.
  destruct (path (removeBuild id w)) as [q|] eqn:Hq; [|done].
  rewrite Hnext. unfold removeBuild in Hq.
  destruct (removed_is_selected _ _) eqn:Hrs.
  - destruct (List.filter _ _) as [|c next] eqn:Hfil; cbn in Hq; [done |].
    injection Hq as <-. exists c. split; [apply list_elem_of_here | done].
  - cbn in Hq. rewrite Hq in Hsel. destruct Hsel as (b & Hb & Hpath).
    exists b. split; [|done].
    apply elem_of_filter_bool. split; [done |].
    apply negb_true_iff. unfold has_id.
    destruct (String.eqb_spec (BuildItem.id b) id) as [Hid|]; [|done].
    exfalso. subst id.
    rewrite (find_unique_id _ _ Hnd Hb), Hq in Hrs. cbn in Hrs.
    by rewrite Hpath, String.eqb_refl in Hrs.
Qed.

Lemma handleLaunch_begin_registry (w : World) :
  builds (handleLaunch_begin w).1 = builds w /\
  path (handleLaunch_begin w).1 = path w.
Proof.
  unfold handleLaunch_begin.
  destruct (launchPath w) as [lp|]; [|done].
  destruct (truthy lp); [|done]. by destruct (user w).
Qed.

Lemma perform_registry_ok (a : Action) (w : World) :
  registry_ok w -> fresh_ids [a] w -> registry_ok (perform a w).
Proof.
  intros (Hlen & Hnd & Hsel & Hnamed) [Hfresh _].
  destruct a as [host now rnd selected | id | i | i |]; cbn [perform].
  - destruct (addBuild_cases host now rnd selected w)
      as [(Hb & Hpath & _) | (p & cover & -> & Hlt & Hb & Hpath & _)].
    + unfold registry_ok, ids, selection_valid. by rewrite Hb, Hpath.
    + assert (Hp : p <> EmptyString).
      { intros ->. symmetry in Hb. by apply cons_neq_self in Hb. }
      unfold registry_ok, ids, selection_valid. rewrite Hb, Hpath.
      split; [simpl; lia |]. split; [|split].
      * cbn [fmap list_fmap]. by apply NoDup_cons.
      * eexists. split; [apply list_elem_of_here | done].
      * by constructor.
  - split; [|split; [|split]].
    + pose proof (removeBuild_length id w). lia.
    + unfold ids. rewrite removeBuild_builds. by apply NoDup_ids_filter.
    + by apply removeBuild_selection_valid.
    + rewrite removeBuild_builds. apply Forall_forall. intros b Hb.
      apply elem_of_filter_bool in Hb as [Hb _].
      by apply (proj1 (Forall_forall _ _) Hnamed).
  - unfold selectBuild. destruct (builds w !! i) as [b|] eqn:Hb; [|done].
    repeat split; try done. unfold selection_valid. cbn.
    exists b. split; [by apply list_elem_of_lookup_2 in Hb | done].
  - unfold playBuild. destruct (builds w !! i) as [b|] eqn:Hb; [|done].
    destruct (handleLaunch_begin_registry w) as [Hbs _].
    destruct (handleLaunch_begin w) as [w1 awaiting]. cbn in *.
    unfold registry_ok, ids, selection_valid. cbn. rewrite Hbs.
    repeat split; try done.
    exists b. split; [by apply list_elem_of_lookup_2 in Hb | done].
  - unfold registry_ok, ids, selection_valid. cbn.
    repeat split; [lia | constructor | constructor].
Qed.

(** X5: along every sequence of adds, removes, selections, plays and
    logouts in which each add draws an unused id, the registry keeps at
    most 16 entries with distinct ids, each named after its folder, and
    the selected path stays empty or the path of an entry. *)
Theorem registry_invariants (acts : list Action) (w : World) :
  registry_ok w -> fresh_ids acts w ->
  Forall registry_ok (act_trace acts w).
Proof.
  revert w. induction acts as [|a acts IH]; intros w Hok Hfresh;
    cbn [act_trace]; [by constructor |].
  destruct Hfresh as [Ha Hrest].
  constructor; [exact Hok |].
  apply IH; [|exact Hrest].
  apply perform_registry_ok; [exact Hok | by split].
Qed.

Lemma registry_invariants_witness :
  Forall registry_ok
    (act_trace
       [ActAdd Sample.host_plain 1760000000000 "k3j9zq" (Picked "/games/Foo");
        ActAdd Sample.host_cover 1760000000001 "p0q1r2" (Picked "/games/Foo");
        ActSelect 1; ActPlay 0;
        ActRemove "1760000000000-k3j9zq"; ActLogout]
       Sample.w_empty).
Proof.
  apply registry_invariants.
  - repeat split; [simpl; lia | constructor | constructor].
  - cbn. repeat split; apply (bool_decide_unpack _); by vm_compute.
Defined.

(** ** Removing, again *)

Lemma filter_bool_sublist (f : BuildItem.t -> bool) (bs : list BuildItem.t) :
  List.filter f bs `sublist_of` bs.
Proof.
  induction bs as [|b bs IH]; cbn [List.filter]; [constructor |].
  destruct (f b); by constructor.
Qed.

Lemma removeBuild_persisted (id : string) (w : World) :
  builds_persisted (removeBuild id w).
Proof.
  unfold builds_persisted. rewrite removeBuild_builds. unfold removeBuild.
  destruct (removed_is_selected _ _);
    [destruct (List.filter _ _) |];
    unfold setBuilds, setPath, localStorage_setItem, withStorage;
    cbn [localStorage]; apply lookup_insert_eq.
Qed.

Lemma find_filter_out (id : string) (bs : list BuildItem.t) :
  List.find (has_id id) (List.filter (fun b => negb (has_id id b)) bs) = None.
Proof.
  induction bs as [|b bs IH]; [reflexivity |]. cbn [List.filter].
  destruct (has_id id b) eqn:Hb; cbn [negb]; [exact IH |].
  cbn [List.find]. by rewrite Hb.
Qed.

Lemma filter_out_absent (id : string) (bs : list BuildItem.t) :
  List.find (has_id id) bs = None ->
  List.filter (fun b => negb (has_id id b)) bs = bs.
Proof.
  intros Hfind. apply List.forallb_filter_id, forallb_forall.
  intros b Hb. by rewrite (List.find_none _ _ Hfind b Hb).
Qed.

(** Removing an id no entry has, from a world whose stored list is in
    step, is the identity. *)
Lemma removeBuild_absent (id : string) (w : World) :
  List.find (has_id id) (builds w) = None ->
  builds_persisted w -> removeBuild id w = w.
Proof.
  intros Hfind Hsync. unfold removeBuild.
  rewrite Hfind, (filter_out_absent _ _ Hfind). cbn [removed_is_selected].
  destruct w as [p l u e b er st lg].
  unfold setBuilds, localStorage_setItem, withStorage, builds_persisted in *.
  cbn [path isLaunching user EOR builds error localStorage log] in *.
  by rewrite insert_id.
Qed.

(** X6: remove takes out exactly the entries of the given id and keeps the
    others in their order; doing it a second time changes nothing at
    all. *)
Theorem removeBuild_exact_and_idempotent (id : string) (w : World) :
  let w' := removeBuild id w in
  (forall b, b ∈ builds w' <-> b ∈ builds w /\ BuildItem.id b <> id) /\
  builds w' `sublist_of` builds w /\
  removeBuild id w' = w'.
Proof.
  cbn zeta. split; [|split].
  - intros b. rewrite removeBuild_builds, elem_of_filter_bool.
    unfold has_id. rewrite negb_true_iff.
    destruct (String.eqb_spec (BuildItem.id b) id) as [Heq|Hne];
      split; intros [Hin Hid]; (split; [exact Hin |]); congruence.
  - rewrite removeBuild_builds. apply filter_bool_sublist.
  - apply removeBuild_absent; [|apply removeBuild_persisted].
    rewrite removeBuild_builds. apply find_filter_out.
Qed.

(** X7: an add that goes through, undone by removing the new id, gives back
    the list of entries as it was; the selection does not go back to what
    it was but to the first entry of the list. *)
Theorem add_then_remove (host : Host) (now : N) (rnd : string)
    (selected : DialogResult) (w : World) :
  new_id now rnd ∉ ids w ->
  let w' := addBuild host now rnd selected w in
  length (builds w') = S (length (builds w)) ->
  let w'' := removeBuild (new_id now rnd) w' in
  builds w'' = builds w /\
  path w'' = BuildItem.path <$> head (builds w) /\
  builds_persisted w''.
Proof.
  intros Hfresh w' Hlen w''. subst w' w''.
  destruct (addBuild_cases host now rnd selected w)
    as [(Hsame & _) | (p & cover & _ & _ & Hb & Hpath & _)];
    [rewrite Hsame in Hlen; lia |].
  assert (Hfind : List.find (has_id (new_id now rnd)) (builds w) = None).
  { destruct (List.find _ _) as [b|] eqn:Hf; [|done].
    apply List.find_some in Hf as [Hin Hid]. exfalso. apply Hfresh.
    apply String.eqb_eq in Hid. rewrite <- Hid.
    apply list_elem_of_fmap_2. by apply list_elem_of_In. }
  remember (BuildItem.mk (pretty now +:+ "-" +:+ rnd) p (getFolderName p)
              cover) as item eqn:Hitem.
  assert (Hid : has_id (new_id now rnd) item = true).
  { rewrite Hitem. unfold has_id, new_id. cbn [BuildItem.id].
    apply String.eqb_refl. }
  assert (Hip : String.eqb (BuildItem.path item) p = true).
  { rewrite Hitem. cbn [BuildItem.path]. apply String.eqb_refl. }
  split; [|split; [|apply removeBuild_persisted]].
  - rewrite removeBuild_builds, Hb. cbn [List.filter]. rewrite Hid.
    cbn [negb]. by apply filter_out_absent.
  - unfold removeBuild. rewrite Hb, Hpath. cbn [List.find List.filter].
    rewrite !Hid. cbn [negb removed_is_selected]. rewrite Hip.
    rewrite (filter_out_absent _ _ Hfind). by destruct (builds w).
Qed.

Lemma add_then_remove_witness :
  let w' := addBuild Sample.host_plain 1760000000000 "k3j9zq"
              (Picked "/games/Baz")
              (setPath (Some "/games/Bar") Sample.w_two) in
  let w'' := removeBuild "1760000000000-k3j9zq"
               (addBuild (Sample.host_with ["/games/Baz/Engine"] (Err "none"))
                  1760000000000 "k3j9zq" (Picked "/games/Baz")
                  (setPath (Some "/games/Bar") Sample.w_two)) in
  builds w'' = [Sample.foo; Sample.bar] /\ path w'' = Some "/games/Foo".
Proof.
  cbn zeta.
  destruct (add_then_remove
              (Sample.host_with ["/games/Baz/Engine"] (Err "none"))
              1760000000000 "k3j9zq" (Picked "/games/Baz")
              (setPath (Some "/games/Bar") Sample.w_two))
    as (Hb & Hp & _).
  - apply (bool_decide_unpack _). by vm_compute.
  - reflexivity.
  - exact (conj Hb Hp).
Defined.

(** ** What reaches the store *)

Lemma step_store (op : Op) (w : World) :
  (builds_persisted w -> builds_persisted (step op w)) /\
  (forall k, k <> "PabloMP.builds" ->
             localStorage (step op w) !! k = localStorage w !! k).
Proof.
  destruct op as [host now rnd selected | id]; cbn [step].
  - destruct (addBuild_cases host now rnd selected w)
      as [(Hb & _ & Hst) | (p & cover & _ & _ & _ & _ & Hst & _)].
    + unfold builds_persisted. rewrite Hb, Hst. done.
    + unfold builds_persisted. rewrite Hst. split.
      * intros _. apply lookup_insert_eq.
      * intros k Hk. by apply lookup_insert_ne.
  - split; [intros _; apply removeBuild_persisted |].
    intros k Hk. unfold removeBuild.
    destruct (removed_is_selected _ _);
      [destruct (List.filter _ _) |];
      unfold setBuilds, setPath, localStorage_setItem, withStorage;
      cbn [localStorage]; by apply lookup_insert_ne.
Qed.

(** X8: adds and removes write the list themselves: along every sequence of
    them the stored list stays the registry, and no key of the store but
    that of the list is ever written, so neither the stored session and
    toggle nor the stored selected path, which only the effect of the
    next render brings up to date. *)
Theorem registry_ops_and_the_store (ops : list Op) (w : World) :
  (builds_persisted w -> Forall builds_persisted (trace ops w)) /\
  (forall k, k <> "PabloMP.builds" ->
     Forall (fun w' => localStorage w' !! k = localStorage w !! k)
       (trace ops w)).
Proof.
  split.
  - revert w. induction ops as [|op ops IH]; intros w Hw; cbn [trace];
      [by constructor |].
    constructor; [exact Hw |]. apply IH. by apply step_store.
  - intros k Hk. revert w. induction ops as [|op ops IH]; intros w;
      cbn [trace]; [by constructor |].
    constructor; [reflexivity |].
    destruct (step_store op w) as [_ Hframe].
    rewrite <- (Hframe k Hk). apply IH.
Qed.

Lemma registry_ops_and_the_store_witness :
  Forall builds_persisted
    (trace [OpRemove "1-aaaaaa";
            OpAdd Sample.host_plain 1760000000000 "k3j9zq"
              (Picked "/games/Foo")]
       Sample.w_two) /\
  Forall (fun w' => localStorage w' !! "buildPath" = Some "/games/Foo")
    (trace [OpRemove "1-aaaaaa";
            OpAdd Sample.host_plain 1760000000000 "k3j9zq"
              (Picked "/games/Foo")]
       Sample.w_two).
Proof.
  destruct (registry_ops_and_the_store
              [OpRemove "1-aaaaaa";
               OpAdd Sample.host_plain 1760000000000 "k3j9zq"
                 (Picked "/games/Foo")]
              Sample.w_two) as [Hsync Hframe].
  split; [by apply Hsync |].
  by apply (Hframe "buildPath").
Defined.

(** X9: the persistence effects bring the stored list and the stored
    selected path in step with the cells (an empty selection is stored as
    no key), write no other key, change no cell, and running them again
    changes nothing. *)
Theorem persist_effects_sync (w : World) :
  let w' := persist_effects w in
  builds_persisted w' /\ path_persisted w' /\
  (forall k, k <> "PabloMP.builds" -> k <> "buildPath" ->
             localStorage w' !! k = localStorage w !! k) /\
  (builds w' = builds w /\ path w' = path w /\ user w' = user w /\
   EOR w' = EOR w /\ error w' = error w /\ log w' = log w) /\
  persist_effects w' = w'.
Proof.
  cbn zeta.
  unfold persist_effects, persist_path_effect, persist_builds_effect.
  unfold builds_persisted, path_persisted.
  destruct w as [p l u e b er st lg].
  unfold localStorage_setItem, localStorage_removeItem, withStorage.
  cbn [path isLaunching user EOR builds error localStorage log].
  destruct p as [p|]; [destruct (truthy p) eqn:Hp |];
    cbn [path isLaunching user EOR builds error localStorage log];
    rewrite ?Hp;
    cbn [path isLaunching user EOR builds error localStorage log].
  all: repeat split.
  all: try (intros k Hk1 Hk2).
  all: try (f_equal; apply map_eq; intros k).
  all: repeat (rewrite lookup_insert || rewrite lookup_delete).
  all: repeat case_decide; congruence.
Qed.

(** ** Starting over a store *)

Lemma truthy_stringify (bs : list BuildItem.t) :
  truthy (JSON.stringify bs) = true.
Proof. reflexivity. Qed.

(** What the load effect leaves in the [EOR] cell. *)
Lemma load_effect_EOR (js : JsonParse) (w : World) :
  EOR (load_effect js w)
  = match localStorage w !! "EOR" with
    | Some raw => String.eqb raw "true"
    | None => EOR w
    end.
Proof.
  unfold load_effect, localStorage_getItem.
  destruct (localStorage w !! "EOR") as [raw|];
    destruct (localStorage w !! "PabloMP.builds") as [s|];
    repeat (case_match; try reflexivity).
Qed.

Lemma persist_effects_cells (w : World) :
  builds (persist_effects w) = builds w /\
  path (persist_effects w) = path w /\
  user (persist_effects w) = user w /\
  EOR (persist_effects w) = EOR w /\
  isLaunching (persist_effects w) = isLaunching w /\
  error (persist_effects w) = error w /\
  log (persist_effects w) = log w.
Proof.
  unfold persist_effects, persist_path_effect, persist_builds_effect.
  destruct w as [p l u e b er st lg].
  unfold localStorage_setItem, localStorage_removeItem, withStorage.
  cbn [path isLaunching user EOR builds error localStorage log].
  destruct p as [p|]; [destruct (truthy p) |]; done.
Qed.

(** X10: the toggle survives a restart: what [handleToggleEOR] stores is what
    the next start of the component reads back, whatever else the store
    holds. *)
Theorem toggle_survives_restart (js : JsonParse) (next : bool) (w : World) :
  EOR (startup js (localStorage (handleToggleEOR next w))) = next.
Proof.
  unfold startup.
  destruct (persist_effects_cells
              (withStorage
                 (fun _ => localStorage
                             (persist_effects
                                (initial_world
                                   (localStorage (handleToggleEOR next w)))))
                 (load_effect js
                    (initial_world (localStorage (handleToggleEOR next w))))))
    as (_ & _ & _ & -> & _).
  cbn [EOR withStorage]. rewrite load_effect_EOR.
  unfold handleToggleEOR, localStorage_setItem, withStorage, initial_world.
  cbn [localStorage]. rewrite lookup_insert_eq. by destruct next.
Qed.

(** The cells after the load effect, when the stored list is in step
    with a registry and [JSON.parse] reads it back. *)
Lemma load_effect_registry (js : JsonParse) (store : gmap string string)
    (bs : list BuildItem.t) (sel : option string) :
  store !! "PabloMP.builds" = Some (JSON.stringify bs) ->
  parse_builds js (JSON.stringify bs) = Ok bs ->
  store !! "buildPath" = sel ->
  builds (load_effect js (initial_world store)) = bs /\
  path (load_effect js (initial_world store))
  = if present sel then sel else BuildItem.path <$> head bs.
Proof.
  intros Hbs Hparse Hsel. unfold load_effect, localStorage_getItem.
  cbn [localStorage initial_world]. rewrite Hbs, Hsel, truthy_stringify, Hparse.
  destruct (present sel) eqn:Hpres; cbn [negb].
  - destruct bs as [|b bs]; repeat (case_match; try done).
  - destruct bs as [|b bs]; repeat (case_match; try done).
Qed.

Lemma launchPath_persisted (w : World) :
  path_persisted w ->
  (if present (localStorage w !! "buildPath")
   then localStorage w !! "buildPath"
   else BuildItem.path <$> head (builds w))
  = launchPath w.
Proof.
  unfold path_persisted, launchPath. intros ->.
  destruct (path w) as [p|]; [|reflexivity].
  destruct (truthy p) eqn:Hp; cbn [present]; by rewrite ?Hp.
Qed.

Lemma persist_effects_store (w : World) :
  builds_persisted (persist_effects w) /\ path_persisted (persist_effects w).
Proof.
  unfold persist_effects, persist_path_effect, persist_builds_effect.
  unfold builds_persisted, path_persisted.
  destruct w as [p l u e b er st lg].
  unfold localStorage_setItem, localStorage_removeItem, withStorage.
  cbn [path isLaunching user EOR builds error localStorage log].
  destruct p as [p|]; [destruct (truthy p) eqn:Hp |];
    cbn [path isLaunching user EOR builds error localStorage log];
    rewrite ?Hp; split;
    repeat (rewrite lookup_insert || rewrite lookup_delete);
    repeat case_decide; congruence.
Qed.

(** X11: a restart over the store of a world whose list and selected path are
    persisted gives the same registry back, when [JSON.parse] reads the
    stored list back; the selected path it starts with is the path a
    launch would have used: the selected one, or the path of the first
    entry when none was selected.  List and selection are persisted
    again at the end of the start. *)
Theorem restart_restores_registry (js : JsonParse) (w : World) :
  builds_persisted w -> path_persisted w ->
  parse_builds js (JSON.stringify (builds w)) = Ok (builds w) ->
  let w' := startup js (localStorage w) in
  builds w' = builds w /\ path w' = launchPath w /\
  builds_persisted w' /\ path_persisted w'.
Proof.
  intros Hbs Hpath Hparse. cbn zeta. unfold startup.
  match goal with
  | |- context [persist_effects ?x] =>
      match x with
      | withStorage _ _ =>
          destruct (persist_effects_cells x) as (-> & -> & _);
          destruct (persist_effects_store x) as [Hb' Hp']
      end
  end.
  cbn [builds path withStorage].
  destruct (load_effect_registry js (localStorage w) (builds w)
              (localStorage w !! "buildPath") Hbs Hparse eq_refl)
    as [-> ->].
  rewrite (launchPath_persisted w Hpath). done.
Qed.

Lemma restart_restores_registry_witness :
  let w' := startup (parse_only [Sample.foo; Sample.bar])
              (localStorage Sample.w_two) in
  builds w' = [Sample.foo; Sample.bar] /\ path w' = Some "/games/Foo".
Proof.
  destruct (restart_restores_registry (parse_only [Sample.foo; Sample.bar])
              Sample.w_two eq_refl eq_refl eq_refl)
    as (Hb & Hp & _).
  exact (conj Hb Hp).
Defined.

(** X12: when the stored list is missing, empty or not parseable, the start
    leaves the registry empty and overwrites the stored list with the
    empty one; a stored selected path is taken over all the same, though
    no entry has it. *)
Theorem start_without_a_list (js : JsonParse) (store : gmap string string) :
  (match store !! "PabloMP.builds" with
   | Some s => truthy s = false \/ exists e, parse_builds js s = Err e
   | None => True
   end) ->
  let w' := startup js store in
  builds w' = [] /\
  localStorage w' !! "PabloMP.builds" = Some "[]" /\
  path w' = (if present (store !! "buildPath") then store !! "buildPath"
             else None).
Proof.
  intros Hlist. cbn zeta. unfold startup.
  match goal with
  | |- context [persist_effects ?x] =>
      match x with
      | withStorage _ _ =>
          destruct (persist_effects_cells x) as (Hb & Hp & _);
          destruct (persist_effects_store x) as [Hb' _]
      end
  end.
  unfold builds_persisted in Hb'. rewrite Hb', Hb, Hp.
  cbn [builds path withStorage].
  assert (Hload :
    builds (load_effect js (initial_world store)) = [] /\
    path (load_effect js (initial_world store))
    = (if present (store !! "buildPath") then store !! "buildPath"
       else None)).
  { unfold load_effect, localStorage_getItem. cbn [localStorage initial_world].
    destruct (store !! "PabloMP.builds") as [s|].
    - destruct Hlist as [-> | [e ->]];
        [|destruct (truthy s)]; repeat (case_match; try done).
    - repeat (case_match; try done). }
  destruct Hload as [-> ->]. done.
Qed.

Lemma start_without_a_list_witness :
  let w' := startup (parse_only [])
              {[ "PabloMP.builds" := "[{"; "buildPath" := "/games/Foo" ]} in
  builds w' = [] /\
  localStorage w' !! "PabloMP.builds" = Some "[]" /\
  path w' = Some "/games/Foo".
Proof.
  destruct (start_without_a_list (parse_only [])
              {[ "PabloMP.builds" := "[{"; "buildPath" := "/games/Foo" ]})
    as (Hb & Hs & Hp).
  - vm_compute. right. by eexists.
  - split; [exact Hb |]. split; [exact Hs |].
    etrans; [exact Hp |]. reflexivity.
Defined.

(** X13: after a logout the next start finds no session, no selection and no
    build, whether or not the persistence effects ran once more after the
    logout; the one thing the start writes is the empty list. *)
Theorem restart_after_logout (js : JsonParse) (w : World) :
  parse_builds js "[]" = Ok [] ->
  startup js (localStorage (handleLogout w))
  = initial_world {[ "PabloMP.builds" := "[]" ]} /\
  startup js (localStorage (persist_effects (handleLogout w)))
  = initial_world {[ "PabloMP.builds" := "[]" ]}.
Proof.
  intros Hparse. split; [reflexivity |].
  unfold startup, load_effect, localStorage_getItem.
  cbn [localStorage initial_world].
  replace (localStorage (persist_effects (handleLogout w)))
    with ({[ "PabloMP.builds" := "[]" ]} : gmap string string)
    by reflexivity.
  set (store := ({[ "PabloMP.builds" := "[]" ]} : gmap string string)).
  assert (H1 : store !! "buildPath" = None) by reflexivity.
  assert (H2 : store !! "user" = None) by reflexivity.
  assert (H3 : store !! "EOR" = None) by reflexivity.
  assert (H4 : store !! "PabloMP.builds" = Some "[]") by reflexivity.
  rewrite H1, H2, H3, H4.
  change (truthy "[]") with true. cbv iota. rewrite Hparse.
  reflexivity.
Qed.

Lemma restart_after_logout_witness :
  user (startup (parse_only []) (localStorage (handleLogout Sample.w_two)))
  = None /\
  builds (startup (parse_only [])
            (localStorage (persist_effects (handleLogout Sample.w_two))))
  = [].
Proof.
  destruct (restart_after_logout (parse_only []) Sample.w_two eq_refl)
    as [-> ->].
  split; reflexivity.
Defined.

(** ** Launching, again *)

Lemma interval_ticks_while_running (goods : list (Result JsValue))
    (w : World) :
  isLaunching w = true ->
  forallb still_running goods = true ->
  Forall (fun w' => isLaunching w' = true) (interval_ticks goods w) /\
  count_queries (log (default w (last (interval_ticks goods w))))
  = count_queries (log w) + length goods.
Proof.
  revert w. induction goods as [|r goods IH]; intros w Hw Hgoods.
  - cbn. split; [constructor | lia].
  - cbn [forallb] in Hgoods. apply andb_prop in Hgoods as [Hr Hgoods].
    cbn [interval_ticks]. rewrite (run_settle_still_running _ _ Hr).
    set (w1 := run_issue (emit IntervalFired w)).
    assert (Hw1 : isLaunching w1 = true) by exact Hw.
    assert (Hc1 : count_queries (log w1) = count_queries (log w) + 1)
      by (subst w1; count_log).
    rewrite Hw1. destruct (IH w1 Hw1 Hgoods) as [Hall Hcount].
    split; [constructor; [exact Hw1 | exact Hall] |].
    rewrite last_cons.
    destruct (last (interval_ticks goods w1)) as [wl|] eqn:Hlast;
      cbn [default from_option length] in *; unfold id in *; lia.
Qed.

(** X14: the polling loop has no timeout: as long as every reply reads as
    still running (true, or anything that is not a boolean), the state
    stays Launching after each of them, and the loop has sent one query
    per reply, the first of them at once. *)
Theorem polling_has_no_timeout (goods : list (Result JsValue)) (w : World) :
  isLaunching w = true ->
  forallb still_running goods = true ->
  Forall (fun w' => isLaunching w' = true) (polling_effect goods w) /\
  exists w',
    last (polling_effect goods w) = Some w' /\
    count_queries (log w') = count_queries (log w) + Nat.max 1 (length goods).
Proof.
  intros Hw Hgoods. unfold polling_effect. rewrite Hw.
  destruct goods as [|r goods].
  - split; [by repeat constructor |].
    eexists. split; [reflexivity |]. count_log.
  - cbn [forallb] in Hgoods. apply andb_prop in Hgoods as [Hr Hgoods].
    rewrite (run_settle_still_running _ _ Hr).
    set (w1 := emit (SetInterval 3000) (run_issue w)).
    assert (Hw1 : isLaunching w1 = true) by exact Hw.
    assert (Hc1 : count_queries (log w1) = count_queries (log w) + 1)
      by (subst w1; count_log).
    rewrite Hw1.
    destruct (interval_ticks_while_running goods w1 Hw1 Hgoods)
      as [Hall Hcount].
    split; [by repeat constructor |].
    rewrite !last_cons.
    destruct (last (interval_ticks goods w1)) as [wl|] eqn:Hlast;
      cbn [default from_option length] in *; unfold id in *;
      eexists; (split; [reflexivity |]); lia.
Qed.

Lemma polling_has_no_timeout_witness :
  Forall (fun w' => isLaunching w' = true)
    (polling_effect [Ok (JsBool true); Ok JsOther; Ok (JsBool true)]
       (setIsLaunching true Sample.w_ready)).
Proof.
  apply (polling_has_no_timeout
           [Ok (JsBool true); Ok JsOther; Ok (JsBool true)]
           (setIsLaunching true Sample.w_ready)); reflexivity.
Defined.

(** While the replies read as still running, every world of the interval
    loop is Launching. *)
Lemma interval_ticks_states_running (goods : list (Result JsValue))
    (w : World) :
  isLaunching w = true ->
  forallb still_running goods = true ->
  isLaunching <$> interval_ticks goods w = replicate (length goods) true /\
  isLaunching (default w (last (interval_ticks goods w))) = true.
Proof.
  revert w. induction goods as [|r goods IH]; intros w Hw Hgoods;
    [by split |].
  cbn [forallb] in Hgoods. apply andb_prop in Hgoods as [Hr Hgoods].
  cbn [interval_ticks]. rewrite (run_settle_still_running _ _ Hr).
  set (w1 := run_issue (emit IntervalFired w)).
  assert (Hw1 : isLaunching w1 = true) by exact Hw.
  rewrite Hw1. destruct (IH w1 Hw1 Hgoods) as [Hstates Hlast].
  split.
  - rewrite fmap_cons, Hstates, Hw1. reflexivity.
  - rewrite last_cons.
    destruct (last (interval_ticks goods w1)) as [wl|];
      [exact Hlast | exact Hw1].
Qed.

(** The world the [catch] block of [handleLaunch] leaves, with the
    clean-up of the polling effect where the loop was still going. *)
Lemma rejected_launch_final (e : string) (w : World) :
  let w' := if isLaunching w
            then polling_cleanup (handleLaunch_resume (Err e) w)
            else handleLaunch_resume (Err e) w in
  isLaunching w' = false /\ error w' = Some (msg_launch_failed +:+ e).
Proof. cbn zeta. by destruct (isLaunching w). Qed.

(** X15: a launch command the host rejects, whenever the rejection comes
    relative to the liveness replies: the last state is Idle, the error is
    surfaced with the reason of the host, and a liveness reply that comes
    later changes nothing.  While the liveness replies that come first
    read as still running the state stays Launching until the rejection;
    where the rejection comes first, one query has been sent and the
    timer is cleared afterwards; where the first liveness reply says that
    nothing runs, the state is Idle before the rejection (states Idle,
    Launching, Idle, Idle) and the rejection only adds the error. *)
Theorem rejected_launch_returns_to_idle (w0 : World) (lp e : string)
    (u : User) (replies : list (Result JsValue)) :
  isLaunching w0 = false ->
  launchPath w0 = Some lp -> truthy lp = true -> user w0 = Some u ->
  let cycle := launch_cycle (Err e) replies w0 in
  let sent := [SetIsLaunching true;
               InvokeFirstLaunch lp (email u) (password u) (EOR w0);
               InvokeIsRunning; SetInterval 3000] in
  (exists w',
     last cycle = Some w' /\
     isLaunching w' = false /\
     error w' = Some (msg_launch_failed +:+ e) /\
     forall later, run_settle true later w' = w') /\
  (forallb still_running replies = true ->
   isLaunching <$> cycle
   = false :: true :: replicate (length replies) true ++ [false]) /\
  (replies = [] ->
   log <$> last cycle
   = Some (log w0 ++ sent ++ [SetTimeoutClearError 5000;
                              SetIsLaunching false; ClearInterval])) /\
  (forall bad rest,
     replies = bad :: rest -> still_running bad = false ->
     isLaunching <$> cycle = [false; true; false; false] /\
     log <$> last cycle
     = Some (log w0 ++ sent ++ [SetIsLaunching false; ClearInterval;
                                SetTimeoutClearError 5000;
                                SetIsLaunching false])).
Proof.
  intros Hidle Hlp Htruthy Hu.
  unfold launch_cycle, handleLaunch_begin. rewrite Hlp, Htruthy, Hu, Hidle.
  cbn [negb orb]. cbn zeta.
  set (w1 := emit (InvokeFirstLaunch lp (email u) (password u) (EOR w0))
               (setIsLaunching true w0)).
  assert (Hw1 : isLaunching w1 = true) by reflexivity.
  assert (Hlog1 : log w1 = log w0 ++ [SetIsLaunching true;
                    InvokeFirstLaunch lp (email u) (password u) (EOR w0)]).
  { subst w1. cbn [log emit setIsLaunching]. by rewrite <- app_assoc. }
  set (w2 := default w1 (last (polling_effect replies w1))).
  destruct (rejected_launch_final e w2) as [Hfin Herr].
  set (w' := if isLaunching w2
             then polling_cleanup (handleLaunch_resume (Err e) w2)
             else handleLaunch_resume (Err e) w2) in *.
  assert (Hlast : last (w0 :: w1 :: tail (polling_effect replies w1) ++ [w'])
                  = Some w').
  { change (last (([w0; w1] ++ tail (polling_effect replies w1)) ++ [w'])
            = Some w').
    apply last_snoc. }
  rewrite Hlast.
  split; [|split; [|split]].
  - exists w'. repeat (split; [done |]).
    by intros [r|err].
  - intros Hgoods. rewrite !fmap_cons, fmap_app. cbn [fmap list_fmap].
    rewrite Hidle, Hw1, Hfin. do 2 f_equal. f_equal.
    unfold polling_effect. rewrite Hw1. cbn zeta. cbn [tail].
    destruct replies as [|r rest]; [reflexivity |].
    cbn [forallb] in Hgoods. apply andb_prop in Hgoods as [Hr Hgoods].
    rewrite (run_settle_still_running _ _ Hr).
    set (w1' := emit (SetInterval 3000) (run_issue w1)).
    assert (Hw1' : isLaunching w1' = true) by reflexivity.
    rewrite Hw1', fmap_cons, Hw1'.
    by rewrite (proj1 (interval_ticks_states_running rest w1' Hw1' Hgoods)).
  - intros Hnone. subst replies. clear Hlast Hfin Herr. subst w' w2.
    assert (Hpolled : polling_effect [] w1
                      = [emit (SetInterval 3000) (run_issue w1)])
      by (unfold polling_effect; by rewrite Hw1).
    assert (Hw1' : isLaunching (emit (SetInterval 3000) (run_issue w1))
                   = true) by reflexivity.
    rewrite Hpolled. cbn [last default from_option]. unfold id.
    rewrite Hw1'. cbn [fmap option_fmap option_map]. f_equal.
    cbn [log polling_cleanup handleLaunch_resume setIsLaunching surface
         setError run_issue emit].
    rewrite Hlog1. by rewrite <- !app_assoc.
  - intros bad rest Hcons Hbad. subst replies.
    assert (Hpolled : polling_effect (bad :: rest) w1
            = [emit (SetInterval 3000) (run_issue w1);
               polling_cleanup
                 (setIsLaunching false
                    (emit (SetInterval 3000) (run_issue w1)))]).
    { unfold polling_effect. rewrite Hw1. cbn zeta.
      by rewrite (run_settle_not_running _ _ Hbad). }
    clear Hlast Hfin Herr. subst w' w2. rewrite Hpolled.
    cbn [last default from_option tail]. unfold id.
    split; [cbn; by rewrite Hidle |].
    cbn [fmap option_fmap option_map]. f_equal.
    cbn [isLaunching polling_cleanup setIsLaunching emit run_issue].
    cbn [log polling_cleanup handleLaunch_resume setIsLaunching surface
         setError run_issue emit].
    rewrite Hlog1. by rewrite <- !app_assoc.
Qed.

Lemma rejected_launch_returns_to_idle_witness :
  let cycle := launch_cycle (Err "spawn failed") [Ok (JsBool false)]
                 Sample.w_ready in
  isLaunching <$> cycle = [false; true; false; false] /\
  exists w',
    last cycle = Some w' /\
    isLaunching w' = false /\
    error w' = Some "Fehler beim Start: spawn failed".
Proof.
  destruct (rejected_launch_returns_to_idle Sample.w_ready "/games/Foo"
              "spawn failed" Sample.alice [Ok (JsBool false)]
              eq_refl eq_refl eq_refl eq_refl)
    as ((w' & Hlast & Hidle & Herr & _) & _ & _ & Hfirst).
  split; [exact (proj1 (Hfirst _ _ eq_refl eq_refl)) |].
  exists w'. exact (conj Hlast (conj Hidle Herr)).
Defined.

(** ** The folder name, again *)

Lemma all_chars_app (f : ascii -> bool) (s t : string) :
  all_chars f (s +:+ t) = all_chars f s && all_chars f t.
Proof.
  induction s as [|c s IH]; [reflexivity |].
  rewrite append_cons. cbn [all_chars]. by rewrite IH, andb_assoc.
Qed.

(** No segment of a split holds a separator. *)
Lemma split_sep_no_sep (p : string) :
  Forall (fun s => no_sep s = true) (split_sep p).
Proof.
  induction p as [|c p IH]; cbn [split_sep]; [by repeat constructor |].
  destruct (is_sep c) eqn:Hc; [by constructor |].
  destruct (split_sep p) as [|seg segs].
  { constructor; [|constructor]. unfold no_sep. cbn [all_chars].
    by rewrite Hc. }
  apply Forall_cons in IH as [Hseg Hsegs].
  constructor; [|exact Hsegs].
  unfold no_sep in *. cbn [all_chars]. by rewrite Hc, Hseg.
Qed.

(** A path that is not made of separators has a non-empty segment. *)
Lemma filter_split_sep_nonempty (p : string) :
  only_seps p = false -> List.filter truthy (split_sep p) <> [].
Proof.
  unfold only_seps. induction p as [|c p IH]; [done |].
  cbn [all_chars split_sep]. destruct (is_sep c) eqn:Hc; cbn [andb].
  - intros Hp. cbn [List.filter]. change (truthy EmptyString) with false.
    cbv iota. by apply IH.
  - intros _. pose proof (split_sep_nonempty p) as Hne.
    destruct (split_sep p) as [|seg segs]; [done |]. cbn. done.
Qed.

Lemma split_sep_single (s : string) : no_sep s = true -> split_sep s = [s].
Proof.
  intros Hs.
  destruct (split_sep_no_sep_app s EmptyString Hs) as (x & xs & Hx & Happ).
  cbn in Hx. injection Hx as <- <-.
  by rewrite !append_nil_r in Happ.
Qed.

(** What [getFolderName] returns, for every path. *)
Lemma getFolderName_cases (p : string) :
  (only_seps p = true /\ getFolderName p = p) \/
  (only_seps p = false /\ getFolderName p <> EmptyString /\
   no_sep (getFolderName p) = true).
Proof.
  destruct (only_seps p) eqn:Hp;
    [left; split; [done | by apply getFolderName_only_seps] | right].
  split; [done |]. unfold getFolderName.
  pose proof (filter_split_sep_nonempty p Hp) as Hne.
  destruct (last (List.filter truthy (split_sep p))) as [s|] eqn:Hlast.
  - apply last_Some_elem_of, list_elem_of_In, List.filter_In in Hlast
      as [Hin Hs].
    rewrite Hs. split; [by destruct s |].
    pose proof (split_sep_no_sep p) as Hall.
    by apply (proj1 (Forall_forall _ _) Hall), list_elem_of_In.
  - by apply last_None in Hlast.
Qed.

(** X16: the folder name of a non-empty path is never empty; it holds no
    separator unless the path is made of separators only, in which case
    it is the path; and taking the folder name of a folder name changes
    nothing, so a card shows the same text as name and as folder. *)
Theorem getFolderName_shape (p : string) :
  (p <> EmptyString -> getFolderName p <> EmptyString) /\
  (only_seps p = false -> no_sep (getFolderName p) = true) /\
  getFolderName (getFolderName p) = getFolderName p.
Proof.
  destruct (getFolderName_cases p) as [[Hp Heq] | (Hp & Hne & Hns)].
  - rewrite !Heq. split; [done |]. split; [by rewrite Hp | reflexivity].
  - split; [done |]. split; [done |].
    unfold getFolderName at 1. rewrite (split_sep_single _ Hns).
    cbn [List.filter].
    destruct (truthy (getFolderName p)) eqn:Ht; [by cbn; rewrite Ht |].
    by destruct (getFolderName p).
Qed.

Lemma getFolderName_shape_witness :
  getFolderName "C:\games\Foo\" <> EmptyString /\
  no_sep (getFolderName "C:\games\Foo\") = true.
Proof.
  destruct (getFolderName_shape "C:\games\Foo\") as (Hne & Hns & _).
  split; [by apply Hne | by apply Hns].
Defined.

(** ** The login form *)

Module EmailRegexFacts.
Import EmailRegex.

Lemma dot_then_nonspace_sound (l : list N) :
  dot_then_nonspace l = true ->
  exists b v post,
    l = b ++ dot :: v :: post /\
    forallb nonspace b = true /\ nonspace v = true.
Proof.
  induction l as [|u rest IH]; [done |]. cbn [dot_then_nonspace].
  intros H. apply orb_prop in H as [H | H].
  - apply andb_prop in H as [Hu Hv]. apply N.eqb_eq in Hu as ->.
    destruct rest as [|v post]; [done |].
    by exists [], v, post.
  - apply andb_prop in H as [Hu Hrest].
    destruct (IH Hrest) as (b & v & post & -> & Hb & Hv).
    exists (u :: b), v, post. cbn [forallb app]. by rewrite Hu, Hb.
Qed.

Lemma dot_then_nonspace_complete (b : list N) (v : N) (post : list N) :
  forallb nonspace b = true -> nonspace v = true ->
  dot_then_nonspace (b ++ dot :: v :: post) = true.
Proof.
  intros Hb Hv. induction b as [|u b IH]; cbn [app dot_then_nonspace].
  - by rewrite N.eqb_refl, Hv.
  - cbn [forallb] in Hb. apply andb_prop in Hb as [Hu Hb].
    rewrite Hu, (IH Hb). cbn. apply orb_true_r.
Qed.

Lemma test_skip (pre l : list N) : test l = true -> test (pre ++ l) = true.
Proof.
  intros Hl. induction pre as [|u pre IH]; [done |].
  cbn [app test]. rewrite IH. apply orb_true_r.
Qed.

Lemma nonempty_last {A} (l : list A) :
  l <> [] -> exists l' x, l = l' ++ [x].
Proof.
  induction l as [|y l IH] using rev_ind; [done |]. intros _. by exists l, y.
Qed.

Lemma test_sound (l : list N) : test l = true -> found_in l.
Proof.
  induction l as [|u rest IH]; [done |]. cbn [test].
  intros H. apply orb_prop in H as [H | H].
  - apply andb_prop in H as [Hu H].
    destruct rest as [|v rest']; [done |].
    apply andb_prop in H as [Hv Hafter]. apply N.eqb_eq in Hv as ->.
    destruct rest' as [|b0 rest'']; [done |]. cbn [after_at] in Hafter.
    apply andb_prop in Hafter as [Hb0 Hdot].
    destruct (dot_then_nonspace_sound _ Hdot)
      as (b & c0 & post & -> & Hb & Hc0).
    exists [], ([u] ++ at_sign :: (b0 :: b) ++ dot :: [c0]), post.
    split; [cbn; by rewrite <- !app_assoc |].
    exists [u], (b0 :: b), [c0]. cbn [forallb].
    rewrite Hu, Hb0, Hb, Hc0. by repeat split.
  - destruct (IH H) as (pre & m & post & -> & Hm).
    by exists (u :: pre), m, post.
Qed.

Lemma test_complete (l : list N) : found_in l -> test l = true.
Proof.
  intros (pre & m & post & -> & a & b & c & -> & Ha & Hb & Hc
          & Hsa & Hsb & Hsc).
  apply test_skip.
  destruct (nonempty_last a Ha) as (a' & u & ->).
  rewrite forallb_app in Hsa. apply andb_prop in Hsa as [_ Hu].
  cbn [forallb] in Hu. rewrite andb_true_r in Hu.
  rewrite <- !app_assoc. apply test_skip. cbn [app test].
  rewrite Hu, N.eqb_refl. cbn [andb].
  destruct b as [|b0 b]; [done |]. destruct c as [|c0 c]; [done |].
  cbn [forallb] in Hsb, Hsc.
  apply andb_prop in Hsb as [Hb0 Hsb]. apply andb_prop in Hsc as [Hc0 _].
  cbn [app after_at]. rewrite Hb0. cbn [andb].
  rewrite <- app_assoc. cbn [app].
  by rewrite (dot_then_nonspace_complete b c0 _ Hsb Hc0).
Qed.

Lemma test_complete_iff (l : list N) : test l = true <-> found_in l.
Proof. split; [apply test_sound | apply test_complete]. Qed.

End EmailRegexFacts.

(** A valid form is stored under [user]. *)
Lemma handleSubmit_stores (w : LoginWorld) :
  form_valid w ->
  login_storage (handleSubmit w)
  = <["user" := stringify_user (form_email w) (form_password w)]>
      (login_storage w).
Proof.
  intros [Hfound Hlen]. unfold handleSubmit.
  rewrite (EmailRegexFacts.test_complete _ Hfound). cbn [negb].
  apply Nat.ltb_ge in Hlen. by rewrite Hlen.
Qed.

(** X17: the test the form runs on the email is the search for a word of
    [\S+@\S+\.\S+]: it passes exactly when the text holds, anywhere, an
    at sign with a character other than white space before it and, after
    it, characters other than white space that include a dot which is
    neither the first of them nor the last. *)
Theorem email_test_is_the_expression (l : list N) :
  EmailRegex.test l = true <-> EmailRegex.found_in l.
Proof.
  split.
  - apply EmailRegexFacts.test_sound.
  - apply EmailRegexFacts.test_complete.
Qed.

(** A text without an at sign fails the test. *)
Lemma no_at_sign_no_match (l : list N) :
  EmailRegex.at_sign ∉ l -> EmailRegex.test l = false.
Proof.
  intros Hno. destruct (EmailRegex.test l) eqn:Ht; [|done].
  apply EmailRegexFacts.test_sound in Ht
    as (pre & m & post & -> & a & b & c & -> & _).
  exfalso. apply Hno. set_solver.
Qed.

(** X18: a submission is accepted exactly when the email holds a word of the
    expression and the password has at least 6 UTF-16 code units: the
    session is then stored under [user] (with the email as username as
    well) and the router is sent to [/onboard].  Otherwise nothing is
    stored, the router is not called, and the error says which check
    failed, the email being checked first.  The form is never changed. *)
Theorem handleSubmit_outcome (w : LoginWorld) :
  let w' := handleSubmit w in
  (form_valid w ->
   login_storage w'
   = <["user" := stringify_user (form_email w) (form_password w)]>
       (login_storage w) /\
   login_log w' = login_log w ++ [Navigate "/onboard"] /\
   login_error w' = None /\ loading w' = false) /\
  (~ form_valid w ->
   login_storage w' = login_storage w /\ login_log w' = login_log w /\
   login_error w'
   = Some (if EmailRegex.test (code_units (form_email w))
           then msg_short_password else msg_bad_email)) /\
  form_email w' = form_email w /\ form_password w' = form_password w.
Proof.
  cbn zeta. unfold handleSubmit, form_valid.
  destruct (EmailRegex.test (code_units (form_email w))) eqn:Htest;
    cbn [negb].
  - apply EmailRegexFacts.test_complete_iff in Htest.
    destruct (js_length (form_password w) <? 6) eqn:Hlen.
    + apply Nat.ltb_lt in Hlen. split; [intros [_ H]; lia |].
      by split.
    + apply Nat.ltb_ge in Hlen. split; [done |].
      split; [intros Hno; exfalso; by apply Hno | done].
  - split; [intros [Hfound _] |].
    + apply EmailRegexFacts.test_complete in Hfound. congruence.
    + by split.
Qed.

Lemma handleSubmit_outcome_witness :
  (let w := mkLoginWorld "alice@example.org" "hunter22" false None ∅ [] in
   login_log (handleSubmit w) = [Navigate "/onboard"] /\
   login_error (handleSubmit w) = None) /\
  (let w := mkLoginWorld "alice@example.org" "12345" false None ∅ [] in
   login_storage (handleSubmit w) = ∅ /\
   login_error (handleSubmit w) = Some msg_short_password) /\
  (let w := mkLoginWorld "alice.example.org" "hunter22" false None ∅ [] in
   login_storage (handleSubmit w) = ∅ /\
   login_error (handleSubmit w) = Some msg_bad_email).
Proof.
  split; [|split]; cbn zeta.
  - destruct (handleSubmit_outcome
                (mkLoginWorld "alice@example.org" "hunter22" false None ∅ []))
      as (Hok & _).
    destruct Hok as (_ & Hlog & Herr & _); [|exact (conj Hlog Herr)].
    split; [|vm_compute; lia].
    apply EmailRegexFacts.test_sound. by vm_compute.
  - destruct (handleSubmit_outcome
                (mkLoginWorld "alice@example.org" "12345" false None ∅ []))
      as (_ & Hno & _).
    destruct Hno as (Hst & _ & Herr); [|exact (conj Hst Herr)].
    intros [_ Hlen]. vm_compute in Hlen. lia.
  - destruct (handleSubmit_outcome
                (mkLoginWorld "alice.example.org" "hunter22" false None ∅ []))
      as (_ & Hno & _).
    destruct Hno as (Hst & _ & Herr); [|exact (conj Hst Herr)].
    intros [Hfound _]. apply EmailRegexFacts.test_complete in Hfound.
    by vm_compute in Hfound.
Defined.

(** What the load effect leaves in the [user] cell. *)
Lemma load_effect_user (js : JsonParse) (w : World) :
  user (load_effect js w)
  = match localStorage w !! "user" with
    | Some s =>
        if truthy s then
          match parse_user js s with
          | Ok u => u
          | Err _ => user w
          end
        else user w
    | None => user w
    end.
Proof.
  unfold load_effect, localStorage_getItem.
  destruct (localStorage w !! "user") as [s|];
    [destruct (truthy s); [destruct (parse_user js s) |] |];
    destruct (localStorage w !! "EOR") as [raw|];
    destruct (localStorage w !! "PabloMP.builds") as [t|];
    repeat (case_match; try reflexivity).
Qed.

(** X19: the session the login form stores is the session the launcher starts
    with, when [JSON.parse] reads the stored text back; a launch with a
    resolved build path is then not refused for want of a session. *)
Theorem login_session_is_read_at_start (js : JsonParse) (w : LoginWorld) :
  form_valid w ->
  parse_user js (stringify_user (form_email w) (form_password w))
  = Ok (Some (mkUser (form_email w) (form_password w))) ->
  let w' := startup js (login_storage (handleSubmit w)) in
  user w' = Some (mkUser (form_email w) (form_password w)) /\
  (resolved w' = true -> (handleLaunch_begin w').2 = true).
Proof.
  intros Hvalid Hparse. cbn zeta.
  assert (Huser :
    user (startup js (login_storage (handleSubmit w)))
    = Some (mkUser (form_email w) (form_password w))).
  { unfold startup.
    match goal with
    | |- context [persist_effects ?x] =>
        match x with
        | withStorage _ _ =>
            destruct (persist_effects_cells x) as (_ & _ & -> & _)
        end
    end.
    cbn [user withStorage]. rewrite load_effect_user.
    cbn [localStorage initial_world].
    rewrite (handleSubmit_stores w Hvalid).
    rewrite lookup_insert_eq.
    change (truthy (stringify_user _ _)) with true. cbv iota.
    by rewrite Hparse. }
  split; [exact Huser |].
  intros Hres. unfold handleLaunch_begin. unfold resolved in Hres.
  destruct (launchPath _) as [lp|]; [|done]. rewrite Hres, Huser. done.
Qed.

Lemma login_session_is_read_at_start_witness :
  user (startup (parse_session Sample.alice)
          (login_storage
             (handleSubmit
                (mkLoginWorld "alice@example.org" "hunter22" false None
                   ∅ []))))
  = Some Sample.alice.
Proof.
  apply (login_session_is_read_at_start (parse_session Sample.alice)
           (mkLoginWorld "alice@example.org" "hunter22" false None ∅ [])).
  - split; [|vm_compute; lia].
    apply EmailRegexFacts.test_sound. by vm_compute.
  - reflexivity.
Defined.

(** ** The stored list keeps everything *)

Module JSONReadFacts.
Import JSONRead.

Lemma strip_app (prefix t : string) : strip prefix (prefix +:+ t) = Some t.
Proof.
  induction prefix as [|c p IH]; [reflexivity |].
  rewrite append_cons. cbn [strip]. by rewrite Ascii.eqb_refl.
Qed.

Lemma read_body_quote_char (c : ascii) (t : string) :
  read_body (JSON.quote_char c +:+ t) = prepend c <$> read_body t.
Proof.
  destruct c as [b0 b1 b2 b3 b4 b5 b6 b7].
  destruct b0, b1, b2, b3, b4, b5, b6, b7; reflexivity.
Qed.

Lemma read_body_quote_body (s t : string) :
  read_body (JSON.quote_body s +:+ String JSON.dquote t) = Some (s, t).
Proof.
  induction s as [|c s IH]; [reflexivity |].
  cbn [JSON.quote_body]. rewrite append_assoc, read_body_quote_char, IH.
  reflexivity.
Qed.

Lemma read_quoted_quote (s t : string) :
  read_quoted (JSON.quote s +:+ t) = Some (s, t).
Proof.
  unfold JSON.quote. rewrite append_cons. cbn [read_quoted].
  rewrite Ascii.eqb_refl, append_assoc, append_cons.
  apply read_body_quote_body.
Qed.

Lemma read_member_member (opening key v t : string) :
  read_member opening key (opening +:+ JSON.member key v +:+ t) = Some (v, t).
Proof.
  unfold read_member, JSON.member.
  replace (opening +:+ (JSON.quote key +:+ ":" +:+ JSON.quote v) +:+ t)
    with ((opening +:+ JSON.quote key +:+ ":") +:+ JSON.quote v +:+ t)
    by (by rewrite !append_assoc).
  rewrite strip_app. cbn [mbind option_bind]. apply read_quoted_quote.
Qed.

(** After the name comes a brace, not a fourth member. *)
Lemma read_member_brace (key t : string) :
  read_member "," key (String "}" t) = None.
Proof. reflexivity. Qed.

Lemma read_item_stringify (b : BuildItem.t) (t : string) :
  read_item (JSON.stringify_item b +:+ t) = Some (b, t).
Proof.
  destruct b as [id path name cover]. unfold JSON.stringify_item, read_item.
  cbn [BuildItem.id BuildItem.path BuildItem.name BuildItem.coverDataUrl].
  rewrite !append_assoc.
  rewrite (read_member_member "{" "id"). cbn [mbind option_bind].
  rewrite (read_member_member "," "path"). cbn [mbind option_bind].
  rewrite (read_member_member "," "name"). cbn [mbind option_bind].
  destruct cover as [c|].
  - rewrite !append_assoc, (read_member_member "," "coverDataUrl").
    by rewrite strip_app.
  - change (EmptyString +:+ "}" +:+ t) with (String "}" t).
    by rewrite read_member_brace.
Qed.

Lemma stringify_item_inj (b1 b2 : BuildItem.t) (t1 t2 : string) :
  JSON.stringify_item b1 +:+ t1 = JSON.stringify_item b2 +:+ t2 ->
  b1 = b2 /\ t1 = t2.
Proof.
  intros H. apply (f_equal read_item) in H.
  rewrite !read_item_stringify in H. by injection H as -> ->.
Qed.

Lemma stringify_item_head (b : BuildItem.t) :
  exists t, JSON.stringify_item b = String "{" t.
Proof. by eexists. Qed.

(** What follows the first entry of a list: the end, or a comma and the
    other entries. *)
Lemma join_comma_cons (b : BuildItem.t) (bs : list BuildItem.t) (t : string) :
  JSON.join_comma (JSON.stringify_item <$> (b :: bs)) +:+ t
  = JSON.stringify_item b +:+
      match bs with
      | [] => t
      | _ :: _ => "," +:+ JSON.join_comma (JSON.stringify_item <$> bs) +:+ t
      end.
Proof.
  destruct bs as [|c bs]; [reflexivity |].
  cbn [fmap list_fmap JSON.join_comma]. by rewrite !append_assoc.
Qed.

Lemma join_comma_inj (bs1 bs2 : list BuildItem.t) :
  JSON.join_comma (JSON.stringify_item <$> bs1) +:+ "]"
  = JSON.join_comma (JSON.stringify_item <$> bs2) +:+ "]" ->
  bs1 = bs2.
Proof.
  revert bs2. induction bs1 as [|b1 bs1 IH]; intros [|b2 bs2] H.
  - reflexivity.
  - rewrite join_comma_cons in H.
    destruct (stringify_item_head b2) as [t Ht]. rewrite Ht in H.
    discriminate.
  - rewrite join_comma_cons in H.
    destruct (stringify_item_head b1) as [t Ht]. rewrite Ht in H.
    discriminate.
  - rewrite !join_comma_cons in H.
    apply stringify_item_inj in H as [-> H]. f_equal.
    destruct bs1 as [|c1 bs1], bs2 as [|c2 bs2]; [done | | |].
    + discriminate.
    + discriminate.
    + apply IH. rewrite !append_cons in H. by injection H.
Qed.

End JSONReadFacts.

(** X20: the text stored for the registry keeps everything of it: two lists
    of entries with the same serialisation are the same list, entry by
    entry, in ids, paths, names and covers, whatever characters those
    hold. *)
Theorem stringify_injective (bs1 bs2 : list BuildItem.t) :
  JSON.stringify bs1 = JSON.stringify bs2 -> bs1 = bs2.
Proof.
  unfold JSON.stringify. intros H.
  rewrite !append_cons in H. injection H as H.
  change (EmptyString +:+ ?x) with x in H.
  by apply JSONReadFacts.join_comma_inj.
Qed.

Lemma stringify_injective_witness :
  builds (removeBuild "3-cccccc" Sample.w_two) = [Sample.foo; Sample.bar].
Proof.
  apply (stringify_injective (builds (removeBuild "3-cccccc" Sample.w_two))
           [Sample.foo; Sample.bar]).
  reflexivity.
Defined.
